(** * RNA modification analysis: region assignment and windowed colocalization

    A shallow embedding of
    - [scripts/4_venn_analysis.py]    ([ColocalizationAnalyzer]),
    - [scripts/analyze_real_data.py]  ([RealDataAnalyzer.colocalization_analysis]),
    - [generate_enhanced_data.py]     ([generate_realistic_bed]),
    - [scripts/1_data_fetching.py]    ([generate_mock_psi]),
    together with the properties their specification states about them.

    Conventions.
    - Python [int] is [Z]; so is a cell of an int64 column, whose sums wrap
      in the code once they leave [[-2^63, 2^63)].
    - Python [float] values are modelled by the exact rationals [Q] they
      denote.  The floats of the modelled code are the half-integers
      [(start + end) / 2] and their differences, which doubles represent
      exactly as long as the coordinates stay below [2^50] in magnitude;
      quotients [(pos - start) / L] of two integers; and the products
      [L * 0.2], [L * 0.6], which are only ever passed to [int(..)].  For a
      gene length [0 <= L <= 2^50] the double product truncates to the same
      integer as the exact one; for longer genes it need not
      ([int(L * 0.2)] is [L // 5 + 1] at [L = 6760870616135934]).
    - The model is exact on these ranges only.  A property whose truth
      depends on them carries the range as a hypothesis ([exact_inputs],
      [int64_inputs], [gene_length g <= 2^50], ...); the others hold of the
      rounded and wrapped arithmetic as well.
    - Python [str] is [string], a list of bytes; [upper] and [lower] are the
      ASCII case maps, which is what [str.upper] and [str.lower] do on
      strings of ASCII characters ([is_ascii]).
    - A pandas DataFrame is the list of its rows, in row order; a column that
      a frame may lack is an [option] field.
    - A raised exception is the [Raised] alternative of [outcome].
    - Draws of the process-wide random generator are explicit arguments. *)

From Stdlib Require Import Ascii ZArith QArith Qabs Lia Lqa.
From stdpp Require Import base decidable option list strings pretty gmap.

Local Open Scope Z_scope.

(** ** Exceptions and the error monad *)

Inductive exn : Set :=
| KeyError
| IndexError
| TypeError
| ValueError
| ZeroDivisionError.

Inductive outcome (A : Type) : Type :=
| Returned (a : A)
| Raised (e : exn).
Arguments Returned {A} a.
Arguments Raised {A} e.

#[global] Instance outcome_ret : MRet outcome := @Returned.
#[global] Instance outcome_bind : MBind outcome := fun A B k m =>
  match m with
  | Returned a => k a
  | Raised e => Raised e
  end.

(** A [for] loop that threads an accumulator and stops at the first
    exception. *)
Fixpoint foldM {A S} (f : S -> A -> outcome S) (s : S) (l : list A)
    : outcome S :=
  match l with
  | [] => Returned s
  | a :: l' => s' ← f s a; foldM f s' l'
  end.

(** The call raised an exception (of any class). *)
Definition fails {A} (o : outcome A) : Prop := exists e, o = Raised e.

(** ** Python numerics *)

(** [int(x)] on a float: truncation toward zero. *)
Definition py_int (x : Q) : Z := Z.quot (Qnum x) (Zpos (Qden x)).

(** [a / b] on two ints: true division. *)
Definition truediv (a b : Z) : outcome Q :=
  if b =? 0 then Raised ZeroDivisionError
  else Returned (inject_Z a / inject_Z b)%Q.

(** [np.random.randint(low, high)]: a uniform draw from the half-open range
    [[low, high)], [ValueError] when the range is empty.  [u] is the entropy
    consumed from the generator.  The call also raises [ValueError] for a
    bound outside int64; the bounds of the modelled calls are gene
    coordinates, and where they come from an argument ([genome_size]) the
    property says how far it may go. *)
Definition randint (low high : Z) (u : Z) : outcome Z :=
  if low <? high then Returned (low + u mod (high - low))
  else Raised ValueError.

(** ** Site tables *)

Record Site : Type := mkSite {
  chrom : string;
  start : Z;
  end_ : Z;
  name : string;
  score : Z;
  strand : option string;
  feature : option string;
  site_id : option string
}.

Abbreviation DataFrame := (list Site).

(** [df[col] = values] for [col = 'site_id']: the column is created, or
    overwritten when the frame already has it. *)
Definition set_site_id (s : string) (r : Site) : Site :=
  {| chrom := chrom r; start := start r; end_ := end_ r; name := name r;
     score := score r; strand := strand r; feature := feature r;
     site_id := Some s |}.

(** [row['site_id']] *)
Definition getitem_site_id (r : Site) : outcome string :=
  match site_id r with
  | Some s => Returned s
  | None => Raised KeyError
  end.

(** [row.get(col, default)] *)
Definition row_get (col : option string) (default : string) : string :=
  match col with
  | Some v => v
  | None => default
  end.

(** ** ColocalizationAnalyzer (scripts/4_venn_analysis.py) *)

Record Pair : Type := mkPair {
  psi_id : string;
  m6a_id : string;
  pair_chrom : string;
  psi_pos : Z;
  m6a_pos : Z;
  distance : Z;
  psi_feature : string;
  m6a_feature : string;
  psi_strand : string;
  m6a_strand : string
}.

(** The analyzer object.  [psi_df] and [m6a_df] are the caller's frames
    themselves ([self.psi_df = psi_df] binds the same object, no copy is
    taken), so what a method writes into them is what the caller sees
    afterwards.  The two frames are distinct objects.  [None] in the three
    result attributes is Python's [None]. *)
Record ColocalizationAnalyzer : Type := mkAnalyzer {
  psi_df : DataFrame;
  m6a_df : DataFrame;
  window : Z;
  colocalized_sites : option (list Pair);
  psi_only : option DataFrame;
  m6a_only : option DataFrame
}.

(** [[prefix + str(i) for i in range(len(df))]] assigned as a column. *)
Definition assign_site_ids (prefix : string) (df : DataFrame) : DataFrame :=
  imap (fun i r => set_site_id (prefix +:+ pretty i) r) df.

(** [ColocalizationAnalyzer.__init__] *)
Definition init (psi m6a : DataFrame) (w : Z) : ColocalizationAnalyzer :=
  {| psi_df := assign_site_ids "PSI_" psi;
     m6a_df := assign_site_ids "M6A_" m6a;
     window := w;
     colocalized_sites := None;
     psi_only := None;
     m6a_only := None |}.

(** [(row['start'] + row['end']) / 2]: the exact midpoint, which is the
    double the code computes for coordinates within [float_exact]. *)
Definition center (r : Site) : Q := (inject_Z (start r + end_ r) / 2)%Q.

(** The boolean mask selecting [nearby_m6a] for one Ψ row. *)
Definition nearby_mask (psi_chrom : string) (psi_center : Q) (w : Z)
    (m6a_row : Site) : bool :=
  bool_decide (chrom m6a_row = psi_chrom)
  && Qle_bool (Qabs (center m6a_row - psi_center)) (inject_Z w).

(** The body of the inner loop: the [pair_info] dict. *)
Definition pair_info (psi_row m6a_row : Site) : outcome Pair :=
  let psi_chrom := chrom psi_row in
  let psi_center := center psi_row in
  let distance := Qabs (center psi_row - center m6a_row) in
  pid ← getitem_site_id psi_row;
  mid ← getitem_site_id m6a_row;
  Returned
    {| psi_id := pid;
       m6a_id := mid;
       pair_chrom := psi_chrom;
       psi_pos := py_int psi_center;
       m6a_pos := py_int (center m6a_row);
       distance := py_int distance;
       psi_feature := row_get (feature psi_row) "Unknown";
       m6a_feature := row_get (feature m6a_row) "Unknown";
       psi_strand := row_get (strand psi_row) "+";
       m6a_strand := row_get (strand m6a_row) "+" |}.

(** The body of the outer loop: the pairs one Ψ row contributes. *)
Definition pairs_of_row (m6a : DataFrame) (w : Z) (psi_row : Site)
    : outcome (list Pair) :=
  let nearby_m6a :=
    filter (nearby_mask (chrom psi_row) (center psi_row) w) m6a in
  mapM (pair_info psi_row) nearby_m6a.

(** The list [colocalized_pairs] after both loops. *)
Definition colocalized_pairs (psi m6a : DataFrame) (w : Z)
    : outcome (list Pair) :=
  pss ← mapM (pairs_of_row m6a w) psi;
  Returned (concat pss).

Definition set_colocalized (ps : list Pair) (self : ColocalizationAnalyzer)
    : ColocalizationAnalyzer :=
  {| psi_df := psi_df self; m6a_df := m6a_df self; window := window self;
     colocalized_sites := Some ps;
     psi_only := psi_only self; m6a_only := m6a_only self |}.

(** [ColocalizationAnalyzer.find_colocalized_sites]: returns the pair table
    and stores it in [self.colocalized_sites]. *)
Definition find_colocalized_sites (self : ColocalizationAnalyzer)
    : outcome (list Pair * ColocalizationAnalyzer) :=
  ps ← colocalized_pairs (psi_df self) (m6a_df self) (window self);
  Returned (ps, set_colocalized ps self).

(** [self.colocalized_sites is None] guard shared by the two methods below:
    the pair table, computed first when it is still missing. *)
Definition ensure_colocalized (self : ColocalizationAnalyzer)
    : outcome (list Pair * ColocalizationAnalyzer) :=
  match colocalized_sites self with
  | None => find_colocalized_sites self
  | Some ps => Returned (ps, self)
  end.

(** [set(column)] *)
Definition id_set (ids : list string) : gset string := list_to_set ids.

(** [df['site_id']] *)
Definition column_site_id (df : DataFrame) : outcome (list string) :=
  mapM getitem_site_id df.

(** [series.isin(ids)] *)
Definition isin (ids : gset string) (col : list string) : list bool :=
  (fun s => bool_decide (s ∈ ids)) <$> col.

(** [df[mask]]: the rows whose mask entry is [True]. *)
Definition boolean_index {Row} (df : list Row) (mask : list bool) : list Row :=
  fst <$> filter (fun rb : Row * bool => Is_true (snd rb)) (zip df mask).

Definition set_only (po mo : DataFrame) (self : ColocalizationAnalyzer)
    : ColocalizationAnalyzer :=
  {| psi_df := psi_df self; m6a_df := m6a_df self; window := window self;
     colocalized_sites := colocalized_sites self;
     psi_only := Some po; m6a_only := Some mo |}.

(** [ColocalizationAnalyzer.categorize_sites].  The two id sets are built
    from the columns of the pair table, or are [set()] when the table is
    empty (and then has no columns); [id_set] of the empty list covers both
    cases. *)
Definition categorize_sites (self : ColocalizationAnalyzer)
    : outcome ColocalizationAnalyzer :=
  '(ps, self) ← ensure_colocalized self;
  let colocalized_psi_ids := id_set (psi_id <$> ps) in
  let colocalized_m6a_ids := id_set (m6a_id <$> ps) in
  pcol ← column_site_id (psi_df self);
  let po :=
    boolean_index (psi_df self) (negb <$> isin colocalized_psi_ids pcol) in
  mcol ← column_site_id (m6a_df self);
  let mo :=
    boolean_index (m6a_df self) (negb <$> isin colocalized_m6a_ids mcol) in
  Returned (set_only po mo self).

(** [len(x)] on an attribute that may still be [None]. *)
Definition len_opt {A} (x : option (list A)) : outcome nat :=
  match x with
  | Some l => Returned (length l)
  | None => Raised TypeError
  end.

(** [ColocalizationAnalyzer.get_venn_counts]:
    [(psi_only_count, m6a_only_count, overlap_count)]. *)
Definition get_venn_counts (self : ColocalizationAnalyzer)
    : outcome ((nat * nat * nat) * ColocalizationAnalyzer) :=
  '(ps, self) ← ensure_colocalized self;
  let overlap_count := size (id_set (psi_id <$> ps)) in
  n_psi ← len_opt (psi_only self);
  n_m6a ← len_opt (m6a_only self);
  Returned ((n_psi, n_m6a, overlap_count), self).

(** Steps 1 to 3 of [main]: build the analyzer on the two loaded frames,
    find the pairs, categorize, count.  The result carries the pair table,
    the three counts and the analyzer (whose two frames are the caller's). *)
Definition run_analysis (psi m6a : DataFrame) (w : Z)
    : outcome (list Pair * (nat * nat * nat) * ColocalizationAnalyzer) :=
  let analyzer := init psi m6a w in
  '(colocalized_df, analyzer) ← find_colocalized_sites analyzer;
  analyzer ← categorize_sites analyzer;
  '(counts, analyzer) ← get_venn_counts analyzer;
  Returned (colocalized_df, counts, analyzer).

(** ** generate_realistic_bed (generate_enhanced_data.py) *)

Record Gene : Type := mkGene {
  gene_chrom : string;
  gene_start : Z;
  gene_end : Z;
  gene_name : string;
  gene_strand : string
}.

Definition REAL_GENES : list Gene :=
  [ mkGene "chr1" 11874 14409 "DDX11L1" "+";
    mkGene "chr1" 14363 29806 "WASH7P" "-";
    mkGene "chr1" 69091 70008 "MIR1302-11" "+";
    mkGene "chr1" 144708 295377 "FAM138A" "-";
    mkGene "chr1" 315496 318815 "MIR1302-2" "-";
    mkGene "chr1" 321145 321985 "MIR1302-10" "-";
    mkGene "chr1" 321089 321115 "OR4F5" "+";
    mkGene "chr1" 332629 353141 "AL627309.1" "-";
    mkGene "chr1" 354251 354774 "MIR6859-1" "+";
    mkGene "chr1" 357172 357641 "MIR6859-2" "-";
    mkGene "chr2" 12840 13265 "MIR1302-1" "+";
    mkGene "chr2" 11874 12441 "WASH7P" "-";
    mkGene "chr3" 60001 61000 "RPL22P1" "+";
    mkGene "chr4" 55001 56000 "C4orf33" "-";
    mkGene "chr5" 128701 129700 "SNORD104" "+" ].

(** The outcome of [np.random.choice(['utr5', 'cds', 'utr3'], p=..)]. *)
Inductive Region : Set := utr5 | cds | utr3.

Definition gene_length (g : Gene) : Z := gene_end g - gene_start g.

(** [int(gene_length * 0.2)] and [int(gene_length * 0.6)], through the exact
    products; the double products of the code truncate to the same integers
    for [0 <= gene_length <= 2^50]. *)
Definition utr5_length (g : Gene) : Z := py_int (inject_Z (gene_length g) * 0.2)%Q.
Definition cds_length (g : Gene) : Z := py_int (inject_Z (gene_length g) * 0.6)%Q.
Definition utr3_length (g : Gene) : Z :=
  gene_length g - utr5_length g - cds_length g.

Definition is_plus (g : Gene) : bool := bool_decide (gene_strand g = "+").

Definition utr5_end (g : Gene) : Z :=
  if is_plus g then gene_start g + utr5_length g
  else gene_end g - utr3_length g - cds_length g.

Definition cds_end (g : Gene) : Z := utr5_end g + cds_length g.

(** The arguments [(low, high)] of the [np.random.randint] call that draws
    [pos] in the branch of [region]: the half-open sub-interval of the gene
    that receives the sites labelled with that region. *)
Definition region_range (g : Gene) (region : Region) : Z * Z :=
  match region with
  | utr5 =>
      if is_plus g then (gene_start g, utr5_end g)
      else (cds_end g, gene_end g)
  | cds =>
      let cds_start := utr5_end g in
      let cds_end_real := cds_end g in
      (cds_start, Z.min cds_end_real (cds_start + cds_length g))
  | utr3 =>
      if is_plus g then (cds_end g, gene_end g)
      else (gene_start g, utr5_end g)
  end.

Definition region_feature (region : Region) : string :=
  match region with
  | utr5 => "5UTR"
  | cds => "CDS"
  | utr3 => "3UTR"
  end.

(** A row of the annotated table the generators build. *)
Record AnnotatedSite : Type := mkAnnotated {
  a_chrom : string;
  a_start : Z;
  a_end : Z;
  a_name : string;
  a_score : Z;
  a_strand : string;
  a_feature : string;
  relative_pos : Q
}.

(** [mod_type.upper()], on a string of ASCII characters *)
Definition upper_ascii (c : ascii) : ascii :=
  let n := nat_of_ascii c in
  if ((97 <=? n) && (n <=? 122))%nat then ascii_of_nat (n - 32) else c.

Fixpoint upper (s : string) : string :=
  match s with
  | EmptyString => EmptyString
  | String c s' => String (upper_ascii c) (upper s')
  end.

(** The random draws one iteration of the site loop consumes. *)
Record Draw : Type := mkDraw {
  gene_draw : Z;
  region_draw : Region;
  pos_draw : Z;
  score_draw : Z
}.

(** From the chosen gene and region to the appended site dict. *)
Definition site_in_gene (mod_type : string) (i : nat) (gene : Gene)
    (region : Region) (pos_u score_u : Z) : outcome AnnotatedSite :=
  let '(low, high) := region_range gene region in
  pos ← randint low high pos_u;
  let feature := region_feature region in
  relative_pos ← truediv (pos - gene_start gene) (gene_length gene);
  score ← randint 150 1000 score_u;
  Returned
    {| a_chrom := gene_chrom gene;
       a_start := pos;
       a_end := pos + 1;
       a_name := upper mod_type +:+ "_site_" +:+ pretty i;
       a_score := score;
       a_strand := gene_strand gene;
       a_feature := feature;
       relative_pos := relative_pos |}.

(** [genes[k]] for a non-negative index. *)
Definition getitem_gene (genes : list Gene) (k : Z) : outcome Gene :=
  match genes !! Z.to_nat k with
  | Some g => Returned g
  | None => Raised IndexError
  end.

(** One iteration of [for i in range(num_sites)]. *)
Definition generate_site (mod_type : string) (i : nat) (d : Draw)
    : outcome AnnotatedSite :=
  let genes := concat (replicate 2000 REAL_GENES) in
  k ← randint 0 (Z.of_nat (length genes)) (gene_draw d);
  gene ← getitem_gene genes k;
  site_in_gene mod_type i gene (region_draw d) (pos_draw d) (score_draw d).

(** The list [sites] after the loop, one dict per iteration; [num_sites] is
    the number of draws supplied. *)
Definition generate_sites (mod_type : string) (draws : list Draw)
    : outcome (list AnnotatedSite) :=
  mapM (fun '(i, d) => generate_site mod_type i d) (imap pair draws).

(** [np.random.seed(seed)] for an int: [ValueError] unless
    [0 <= seed <= 2**32 - 1]. *)
Definition np_random_seed (seed : Z) : outcome unit :=
  if (0 <=? seed) && (seed <? 2 ^ 32) then Returned tt
  else Raised ValueError.

(** A line of the BED file. *)
Record BedRow : Type := mkBedRow {
  bed_chrom : string;
  bed_start : Z;
  bed_end : Z;
  bed_name : string;
  bed_score : Z;
  bed_strand : string
}.

Definition bed_row (s : AnnotatedSite) : BedRow :=
  {| bed_chrom := a_chrom s; bed_start := a_start s; bed_end := a_end s;
     bed_name := a_name s; bed_score := a_score s; bed_strand := a_strand s |}.

(** [df[['chrom', 'start', 'end', 'name', 'score', 'strand']]] on
    [df = pd.DataFrame(sites)]: a frame built from an empty list has no
    columns, and selecting them raises [KeyError]. *)
Definition bed_columns (df : list AnnotatedSite) : outcome (list BedRow) :=
  match df with
  | [] => Raised KeyError
  | _ :: _ => Returned (bed_row <$> df)
  end.

(** What a call leaves behind: the rows written to the BED file, the rows
    written to the annotated CSV, and the frame returned.  The two
    directories written to are taken to exist. *)
Record Generated : Type := mkGenerated {
  bed_file : list BedRow;
  annotated_csv : list AnnotatedSite;
  returned_df : list AnnotatedSite
}.

(** [generate_realistic_bed(num_sites, mod_type, seed)] *)
Definition generate_realistic_bed (draws : list Draw) (mod_type : string)
    (seed : Z) : outcome Generated :=
  _ ← np_random_seed seed;
  df ← generate_sites mod_type draws;
  bed_data ← bed_columns df;
  Returned {| bed_file := bed_data; annotated_csv := df; returned_df := df |}.

(** ** generate_mock_psi (scripts/1_data_fetching.py) *)

(** A row of [genes_df]. *)
Record MockGene : Type := mkMockGene {
  mg_chrom : string;
  mg_gene_start : Z;
  mg_gene_end : Z;
  mg_utr5_end : Z;
  mg_cds_end : Z;
  mg_gene_length : Z
}.

(** The dict appended to [gene_data] once [chrom], [gene_start] and
    [gene_length] have been drawn. *)
Definition mock_gene (chrom : string) (gene_start gene_length : Z) : MockGene :=
  let utr5_length := py_int (inject_Z gene_length * 0.2)%Q in
  let cds_length := py_int (inject_Z gene_length * 0.6)%Q in
  {| mg_chrom := chrom;
     mg_gene_start := gene_start;
     mg_gene_end := gene_start + gene_length;
     mg_utr5_end := gene_start + utr5_length;
     mg_cds_end := gene_start + utr5_length + cds_length;
     mg_gene_length := gene_length |}.

(** One iteration of [for i in range(num_genes)]. *)
Definition draw_mock_gene (genome_size : Z) (chrom_u start_u length_u : Z)
    : outcome MockGene :=
  c ← randint 1 23 chrom_u;
  gene_start ← randint 1000000 (genome_size * 1000000 - 100000) start_u;
  gene_length ← randint 1000 100000 length_u;
  Returned (mock_gene ("chr" +:+ pretty c) gene_start gene_length).

(** The [np.random.randint] arguments in the branch of [region_choice];
    the strand of the site plays no part in them. *)
Definition mock_region_range (gene : MockGene) (region_choice : Region) : Z * Z :=
  match region_choice with
  | utr5 => (mg_gene_start gene, mg_utr5_end gene)
  | cds => (mg_utr5_end gene, mg_cds_end gene)
  | utr3 => (mg_cds_end gene, mg_gene_end gene)
  end.

(** One iteration of the site loop, from the sampled gene on; [n] is
    [len(psi_sites)] and [strand_choice] the result of
    [np.random.choice(['+', '-'])], drawn after the position. *)
Definition mock_psi_site (n : nat) (gene : MockGene) (region_choice : Region)
    (pos_u score_u : Z) (strand_choice : string) : outcome AnnotatedSite :=
  let '(low, high) := mock_region_range gene region_choice in
  pos ← randint low high pos_u;
  let feature := region_feature region_choice in
  relative_pos ← truediv (pos - mg_gene_start gene) (mg_gene_length gene);
  score ← randint 100 1000 score_u;
  Returned
    {| a_chrom := mg_chrom gene;
       a_start := pos;
       a_end := pos + 1;
       a_name := "PSI_" +:+ pretty (n + 1)%nat;
       a_score := score;
       a_strand := strand_choice;
       a_feature := feature;
       relative_pos := relative_pos |}.

(** ** RealDataAnalyzer.colocalization_analysis (scripts/analyze_real_data.py) *)

Module RealData.

(** A row of [psi_real_full.csv] or [m6a_real_full.csv]; only the m6A table
    has [peak_pos], and [chrom_std] and [center] exist once
    [colocalization_analysis] has added them.  Whether a frame has a column
    is read off its rows, so a frame without rows says nothing about its
    columns: the properties of a frame that must have [peak_pos] are stated
    for frames with at least one row.  The integer columns are int64 in the
    code; [int64_inputs] is the range in which none of the sums and
    differences below wraps. *)
Record Row : Type := mkRow {
  chrom : string;
  start : Z;
  end_ : Z;
  peak_pos : option Z;
  chrom_std : option string;
  center : option Z
}.

(** The frames [load_data] stored in the analyzer. *)
Record RealDataAnalyzer : Type := mkAnalyzer {
  psi_df : list Row;
  m6a_df : list Row
}.

(** A dict appended to [colocalized_pairs]. *)
Record PairRow : Type := mkPairRow {
  pair_chrom : string;
  psi_pos : Z;
  m6a_pos : Z;
  distance : Z
}.

(** [s.replace('chr', '')] *)
Fixpoint replace_chr (s : string) : string :=
  match s with
  | String "c" (String "h" (String "r" rest)) => replace_chr rest
  | String c rest => String c (replace_chr rest)
  | EmptyString => EmptyString
  end.

Definition set_chrom_std (v : string) (r : Row) : Row :=
  {| chrom := chrom r; start := start r; end_ := end_ r;
     peak_pos := peak_pos r; chrom_std := Some v; center := center r |}.

Definition set_center (v : Z) (r : Row) : Row :=
  {| chrom := chrom r; start := start r; end_ := end_ r;
     peak_pos := peak_pos r; chrom_std := chrom_std r; center := Some v |}.

(** [row[col]] for the three columns a frame may lack. *)
Definition getitem {A} (col : Row -> option A) (r : Row) : outcome A :=
  match col r with
  | Some v => Returned v
  | None => Raised KeyError
  end.

(** [df[df['chrom_std'] == chrom]] *)
Definition on_chrom (df : list Row) (chrom : string) : outcome (list Row) :=
  col ← mapM (getitem chrom_std) df;
  Returned (boolean_index df ((fun c => bool_decide (c = chrom)) <$> col)).

(** [m6a_chrom[abs(m6a_chrom['center'] - psi_pos) <= window]] *)
Definition nearby (m6a_chrom : list Row) (psi_pos window : Z)
    : outcome (list Row) :=
  col ← mapM (getitem center) m6a_chrom;
  Returned (boolean_index m6a_chrom
              ((fun c => bool_decide (Z.abs (c - psi_pos) <= window)) <$> col)).

(** The body of the loop over [psi_chrom]; the accumulator is
    [(colocalized, colocalized_pairs)]. *)
Definition row_step (chrom : string) (m6a_chrom : list Row) (window : Z)
    (acc : nat * list PairRow) (psi_row : Row) : outcome (nat * list PairRow) :=
  psi_pos ← getitem center psi_row;
  nearby ← nearby m6a_chrom psi_pos window;
  if bool_decide (0 < length nearby)%nat then
    new ← mapM (fun m6a_row =>
                  c ← getitem center m6a_row;
                  Returned {| pair_chrom := chrom;
                              psi_pos := psi_pos;
                              m6a_pos := c;
                              distance := Z.abs (psi_pos - c) |}) nearby;
    Returned ((fst acc + length nearby)%nat, snd acc ++ new)
  else Returned acc.

(** The body of the loop over the common chromosomes. *)
Definition chrom_step (psi m6a : list Row) (window : Z)
    (acc : nat * list PairRow) (chrom : string) : outcome (nat * list PairRow) :=
  psi_chrom ← on_chrom psi chrom;
  m6a_chrom ← on_chrom m6a chrom;
  foldM (row_step chrom m6a_chrom window) acc psi_chrom.

(** [RealDataAnalyzer.colocalization_analysis]: the returned triple
    [(colocalized, len(psi_df), len(m6a_df))], the table [colocal_df] that
    is written out, and the analyzer with its two frames as the method
    leaves them.  A Python set is iterated in an order the language leaves
    open; [elements] fixes one. *)
Definition colocalization_analysis (self : RealDataAnalyzer) (window : Z)
    : outcome ((nat * nat * nat) * list PairRow * RealDataAnalyzer) :=
  let psi1 := (fun r => set_chrom_std (replace_chr (chrom r)) r) <$> psi_df self in
  let m6a1 := (fun r => set_chrom_std (replace_chr (chrom r)) r) <$> m6a_df self in
  let psi2 := (fun r => set_center ((start r + end_ r) / 2) r) <$> psi1 in
  m6a2 ← mapM (fun r => p ← getitem peak_pos r; Returned (set_center p r)) m6a1;
  pcol ← mapM (getitem chrom_std) psi2;
  mcol ← mapM (getitem chrom_std) m6a2;
  let chroms : gset string := list_to_set pcol ∩ list_to_set mcol in
  '(colocalized, colocalized_pairs) ←
    foldM (chrom_step psi2 m6a2 window) (0%nat, []) (elements chroms);
  Returned ((colocalized, length psi2, length m6a2), colocalized_pairs,
            {| psi_df := psi2; m6a_df := m6a2 |}).

End RealData.

(** ** Notions used to state the properties *)

(** The [site_id] cell of a row of a frame that has the column. *)
Definition the_id (r : Site) : string := row_get (site_id r) "".

Definition has_id (r : Site) : Prop := is_Some (site_id r).

(** The centre distance of two sites, [abs(center_a - center_b)]. *)
Definition center_distance (a b : Site) : Q := Qabs (center a - center b).

(** The record [pair_info] builds from two rows that carry ids. *)
Definition pair_of (psi_row m6a_row : Site) : Pair :=
  {| psi_id := the_id psi_row;
     m6a_id := the_id m6a_row;
     pair_chrom := chrom psi_row;
     psi_pos := py_int (center psi_row);
     m6a_pos := py_int (center m6a_row);
     distance := py_int (center_distance psi_row m6a_row);
     psi_feature := row_get (feature psi_row) "Unknown";
     m6a_feature := row_get (feature m6a_row) "Unknown";
     psi_strand := row_get (strand psi_row) "+";
     m6a_strand := row_get (strand m6a_row) "+" |}.

Definition nearby (w : Z) (psi_row : Site) (m6a : DataFrame) : DataFrame :=
  filter (nearby_mask (chrom psi_row) (center psi_row) w) m6a.

Definition pairs_of (psi m6a : DataFrame) (w : Z) : list Pair :=
  concat ((fun p => pair_of p <$> nearby w p m6a) <$> psi).

(** The rows of a frame whose id is not in [ids]. *)
Definition unmatched (ids : gset string) (df : DataFrame) : DataFrame :=
  filter (fun r => the_id r ∉ ids) df.

(** How many emitted pairs join the sites with ids [x] and [y]. *)
Definition joins (x y : string) (p : Pair) : Prop :=
  psi_id p = x ∧ m6a_id p = y.

Definition pair_count (x y : string) (ps : list Pair) : nat :=
  length (filter (joins x y) ps).

(** *** The ranges on which the model's numbers are the code's *)

(** Coordinates for which the sum [start + end], the midpoint and every
    difference of two midpoints are doubles, and no int64 sum wraps. *)
Definition float_exact (r : Site) : Prop :=
  Z.abs (start r) <= 2 ^ 50 ∧ Z.abs (end_ r) <= 2 ^ 50.

(** The inputs of the first matcher on which the model is exact; the window
    is compared as a double. *)
Definition exact_inputs (A B : DataFrame) (w : Z) : Prop :=
  Forall float_exact A ∧ Forall float_exact B ∧ Z.abs w <= 2 ^ 53.

(** A row of the second matcher whose int64 cells are far enough from the
    ends of int64. *)
Definition int64_row (r : RealData.Row) : Prop :=
  Z.abs (RealData.start r) <= 2 ^ 61 ∧ Z.abs (RealData.end_ r) <= 2 ^ 61
  ∧ from_option (fun c => Z.abs c <= 2 ^ 61) True (RealData.peak_pos r).

Definition int64_inputs (psi m6a : list RealData.Row) (w : Z) : Prop :=
  Forall int64_row psi ∧ Forall int64_row m6a ∧ Z.abs w <= 2 ^ 62.

(** A string of ASCII characters. *)
Definition is_ascii (s : string) : Prop :=
  Forall (fun c => (nat_of_ascii c < 128)%nat) (String.list_ascii_of_string s).

(** Membership in a half-open integer interval [[low, high)]. *)
Definition in_range (p : Z) (r : Z * Z) : Prop := fst r <= p < snd r.

(** For [RealData]: a row that has its two added columns, and their cells. *)
Definition rd_complete (r : RealData.Row) : Prop :=
  is_Some (RealData.chrom_std r) ∧ is_Some (RealData.center r).

Definition rd_std (r : RealData.Row) : string :=
  default "" (RealData.chrom_std r).

Definition rd_center (r : RealData.Row) : Z :=
  default 0 (RealData.center r).

(** The pairs one Ψ row contributes on chromosome [c]. *)
Definition rd_pairs_row (c : string) (m6a_chrom : list RealData.Row) (w : Z)
    (psi_row : RealData.Row) : list RealData.PairRow :=
  (fun m => RealData.mkPairRow c (rd_center psi_row) (rd_center m)
              (Z.abs (rd_center psi_row - rd_center m)))
  <$> filter (fun m => Z.abs (rd_center m - rd_center psi_row) <= w) m6a_chrom.

(** The pairs of one chromosome. *)
Definition rd_pairs_chrom (psi m6a : list RealData.Row) (w : Z) (c : string)
    : list RealData.PairRow :=
  concat (rd_pairs_row c (filter (fun r => rd_std r = c) m6a) w
          <$> filter (fun r => rd_std r = c) psi).

(** The two frames as [colocalization_analysis] leaves them. *)
Definition rd_psi_after (r : RealData.Row) : RealData.Row :=
  RealData.set_center ((RealData.start r + RealData.end_ r) / 2)
    (RealData.set_chrom_std (RealData.replace_chr (RealData.chrom r)) r).

Definition rd_m6a_after (r : RealData.Row) : RealData.Row :=
  RealData.set_center (default 0 (RealData.peak_pos r))
    (RealData.set_chrom_std (RealData.replace_chr (RealData.chrom r)) r).

(** ** Sample inputs *)

(** A row as [pd.read_csv] yields it from an annotated table: a one-base
    interval, no [site_id] column. *)
Definition site_at (c : string) (pos : Z) (nm : string) : Site :=
  {| chrom := c; start := pos; end_ := pos + 1; name := nm; score := 500;
     strand := Some "+"; feature := Some "CDS"; site_id := None |}.

Definition sample_psi : DataFrame := [site_at "chr1" 1500 "PSI_1"].

Definition sample_m6a : DataFrame :=
  [site_at "chr1" 1530 "M6A_1"; site_at "chr1" 1545 "M6A_2";
   site_at "chr1" 1600 "M6A_3"].

(** A gene of length 4, shorter than any entry of [REAL_GENES]. *)
Definition tiny_gene : Gene := mkGene "chr1" 100 104 "tiny" "+".

(** The same gene read on the other strand. *)
Definition with_strand (s : string) (g : Gene) : Gene :=
  {| gene_chrom := gene_chrom g; gene_start := gene_start g;
     gene_end := gene_end g; gene_name := gene_name g; gene_strand := s |}.

(** ** plot_venn_diagram (scripts/4_venn_analysis.py) *)

(** The numbers the title of [plot_venn_diagram] shows: [total_psi],
    [total_m6a] and [overlap / max(total_psi, total_m6a) * 100]. *)
Definition plot_venn_diagram_title (psi_only m6a_only overlap : Z)
    : outcome (Z * Z * Q) :=
  let total_psi := psi_only + overlap in
  let total_m6a := m6a_only + overlap in
  ratio ← truediv overlap (Z.max total_psi total_m6a);
  Returned (total_psi, total_m6a, (ratio * 100)%Q).

(** ** RealDataAnalyzer: the other methods (scripts/analyze_real_data.py) *)

(** [RealDataAnalyzer.plot_venn_diagram]: the triple
    [(psi_only, m6a_only, overlap)] passed to [venn2]. *)
Definition real_venn_subsets (colocalized n_psi n_m6a : Z) : Z * Z * Z :=
  let psi_only := n_psi - Z.min colocalized n_psi in
  let m6a_only := n_m6a - Z.min colocalized n_m6a in
  let overlap := Z.min colocalized (Z.min n_psi n_m6a) in
  (psi_only, m6a_only, overlap).

(** [str.lower()], on ASCII text. *)
Definition lower_ascii (c : ascii) : ascii :=
  let n := nat_of_ascii c in
  if ((65 <=? n) && (n <=? 90))%nat then ascii_of_nat (n + 32) else c.

Fixpoint lower (s : string) : string :=
  match s with
  | EmptyString => EmptyString
  | String c s' => String (lower_ascii c) (lower s')
  end.

(** [sub in s] on two strings. *)
Fixpoint contains (sub s : string) : bool :=
  String.prefix sub s
  || match s with
     | EmptyString => false
     | String _ s' => contains sub s'
     end.

(** [simplify_region_psi] of [normalize_regions]. *)
Definition simplify_region_psi (region : string) : string :=
  if contains "utr3" (lower region) then "3'UTR"
  else if contains "utr5" (lower region) then "5'UTR"
  else if contains "cds" (lower region) then "CDS"
  else "Other".

(** [simplify_region_m6a] of [normalize_regions]; [None] is a cell that is
    not a [str]. *)
Definition simplify_region_m6a (region : option string) : string :=
  match region with
  | None => "Other"
  | Some region =>
      let region_lower := lower region in
      if contains "utr3" region_lower then "3'UTR"
      else if contains "utr5" region_lower then "5'UTR"
      else if contains "cds" region_lower then "CDS"
      else if contains "exon" region_lower
              && negb (contains "cds" region_lower) then "CDS"
      else "Other"
  end.

(** [series.value_counts().get(r, 0)] *)
Definition value_count (labels : list string) (r : string) : nat :=
  length (filter (fun l => l = r) labels).

(** The contingency table of [metagene_analysis]: for each of the three
    regions, the count among the Ψ labels and among the m6A labels. *)
Definition contingency_table (psi_labels m6a_labels : list string)
    : list (nat * nat) :=
  (fun r => (value_count psi_labels r, value_count m6a_labels r))
  <$> ["5'UTR"; "CDS"; "3'UTR"].

(** ** M6ADataProcessor.prepare_for_analysis (scripts/process_real_m6a.py) *)

Definition set_peak_pos (v : Z) (r : RealData.Row) : RealData.Row :=
  {| RealData.chrom := RealData.chrom r; RealData.start := RealData.start r;
     RealData.end_ := RealData.end_ r; RealData.peak_pos := Some v;
     RealData.chrom_std := RealData.chrom_std r;
     RealData.center := RealData.center r |}.

(** [df['peak_pos'] = (df['start'] + df['end']) // 2], without the wrap of
    the int64 sum (see [int64_row]) *)
Definition prepare_for_analysis (df : list RealData.Row) : list RealData.Row :=
  (fun r => set_peak_pos ((RealData.start r + RealData.end_ r) / 2) r) <$> df.

(** ** generate_mock_m6a (scripts/1_data_fetching.py) *)

(** The draw of [pos] in the branch of [region_choice]; in the CDS the
    position is taken from its last part when that part is not empty. *)
Definition mock_m6a_pos (gene : MockGene) (region_choice : Region) (pos_u : Z)
    : outcome Z :=
  match region_choice with
  | utr5 => randint (mg_gene_start gene) (mg_utr5_end gene) pos_u
  | cds =>
      let cds_start := mg_utr5_end gene in
      let cds_end := mg_cds_end gene in
      let cds_length := cds_end - cds_start in
      let threshold := (inject_Z cds_start + inject_Z cds_length * 0.6)%Q in
      if negb (Qle_bool (inject_Z cds_end) threshold) then
        randint (py_int threshold) cds_end pos_u
      else randint cds_start cds_end pos_u
  | utr3 => randint (mg_cds_end gene) (mg_gene_end gene) pos_u
  end.

(** One iteration of the m6A site loop, from the sampled gene on. *)
Definition mock_m6a_site (n : nat) (gene : MockGene) (region_choice : Region)
    (pos_u score_u : Z) (strand_choice : string) : outcome AnnotatedSite :=
  pos ← mock_m6a_pos gene region_choice pos_u;
  let feature := region_feature region_choice in
  relative_pos ← truediv (pos - mg_gene_start gene) (mg_gene_length gene);
  score ← randint 100 1000 score_u;
  Returned
    {| a_chrom := mg_chrom gene;
       a_start := pos;
       a_end := pos + 1;
       a_name := "M6A_" +:+ pretty (n + 1)%nat;
       a_score := score;
       a_strand := strand_choice;
       a_feature := feature;
       relative_pos := relative_pos |}.

(** ** SequenceExtractor and MotifAnalyzer (scripts/2_motif_analysis.py) *)

(** [complement.get(base, base)] *)
Definition complement (base : ascii) : ascii :=
  if Ascii.eqb base "A" then "T"
  else if Ascii.eqb base "T" then "A"
  else if Ascii.eqb base "C" then "G"
  else if Ascii.eqb base "G" then "C"
  else if Ascii.eqb base "N" then "N"
  else if Ascii.eqb base "U" then "A"
  else if Ascii.eqb base "a" then "t"
  else if Ascii.eqb base "t" then "a"
  else if Ascii.eqb base "c" then "g"
  else if Ascii.eqb base "g" then "c"
  else if Ascii.eqb base "n" then "n"
  else if Ascii.eqb base "u" then "a"
  else base.

(** [SequenceExtractor._reverse_complement] *)
Definition _reverse_complement (sequence : string) : string :=
  String.string_of_list_ascii
    (complement <$> reverse (String.list_ascii_of_string sequence)).

(** [s.replace('T', 'U')] *)
Fixpoint replace_T_U (s : string) : string :=
  match s with
  | EmptyString => EmptyString
  | String c s' =>
      String (if Ascii.eqb c "T" then "U"%char else c) (replace_T_U s')
  end.

(** [MotifAnalyzer.__init__]: the stored [self.sequences]. *)
Definition motif_sequences (sequences : list string) : list string :=
  (fun seq => replace_T_U (upper seq)) <$> sequences.

(** ** Sample inputs for the second matcher *)

Definition sample_real : RealData.RealDataAnalyzer :=
  {| RealData.psi_df :=
       [RealData.mkRow "chr1" 100 101 None None None;
        RealData.mkRow "chr2" 5 8 None None None];
     RealData.m6a_df :=
       [RealData.mkRow "1" 120 131 (Some 125) None None;
        RealData.mkRow "chr2" 4 10 (Some 7) None None] |}.

(** A Ψ site on [chr1] and two m6A peaks wider than one base, the first
    named without the [chr] prefix and with its [peak_pos] at the floor
    midpoint, the second with its [peak_pos] off the midpoint. *)
Definition sample_real_peaks : RealData.RealDataAnalyzer :=
  {| RealData.psi_df := [RealData.mkRow "chr1" 100 101 None None None];
     RealData.m6a_df :=
       [RealData.mkRow "1" 120 130 (Some 125) None None;
        RealData.mkRow "chr1" 140 150 (Some 148) None None] |}.

(** [MotifAnalyzer.compute_pwm].  A row of the count matrix holds one
    number per base, in the column order of [bases = ['A', 'U', 'C', 'G']]. *)
Record BaseRow : Type := mkBaseRow { n_A : Q; n_U : Q; n_C : Q; n_G : Q }.

(** The update of row [pos] for the base found at [pos]. *)
Definition add_base (row : BaseRow) (base : ascii) : BaseRow :=
  if Ascii.eqb base "A" then mkBaseRow (n_A row + 1) (n_U row) (n_C row) (n_G row)
  else if Ascii.eqb base "U" then mkBaseRow (n_A row) (n_U row + 1) (n_C row) (n_G row)
  else if Ascii.eqb base "C" then mkBaseRow (n_A row) (n_U row) (n_C row + 1) (n_G row)
  else if Ascii.eqb base "G" then mkBaseRow (n_A row) (n_U row) (n_C row) (n_G row + 1)
  else mkBaseRow (n_A row + 0.25) (n_U row + 0.25) (n_C row + 0.25)
         (n_G row + 0.25).

(** The body of [for seq in self.sequences]: a sequence of another length
    than the first is skipped. *)
Definition count_sequence (seq_length : nat) (count_matrix : list BaseRow)
    (seq : string) : list BaseRow :=
  if decide (String.length seq = seq_length) then
    zip_with add_base count_matrix (String.list_ascii_of_string seq)
  else count_matrix.

(** [count_matrix] after the loop and the pseudocount. *)
Definition pwm_counts (sequences : list string) : list BaseRow :=
  match sequences with
  | [] => []
  | first :: _ =>
      let seq_length := String.length first in
      let zeros := replicate seq_length (mkBaseRow 0 0 0 0) in
      (fun r => mkBaseRow (n_A r + 0.5) (n_U r + 0.5) (n_C r + 0.5) (n_G r + 0.5))
      <$> foldl (count_sequence seq_length) zeros sequences
  end.

(** [count_matrix.sum(axis=1)] for one row. *)
Definition row_sum (r : BaseRow) : Q := (n_A r + n_U r + n_C r + n_G r)%Q.

(** [compute_pwm]: the frequency matrix; empty for an empty sequence list. *)
Definition compute_pwm (sequences : list string) : list BaseRow :=
  (fun r => mkBaseRow (n_A r / row_sum r) (n_U r / row_sum r)
              (n_C r / row_sum r) (n_G r / row_sum r))
  <$> pwm_counts sequences.

(** The base a double complement leaves: [U] comes back as [T]. *)
Definition uracil_to_thymine (c : ascii) : ascii :=
  if Ascii.eqb c "U" then "T"
  else if Ascii.eqb c "u" then "t"
  else c.

(** How many sequences have the length of the first one. *)
Definition same_length_count (sequences : list string) : nat :=
  match sequences with
  | [] => 0
  | first :: _ =>
      length (filter (fun s => String.length s = String.length first) sequences)
  end.

(** A row of the count matrix after [k] sequences were counted: it sums
    to [k] and has no negative entry. *)
Definition row_ok (k : Z) (r : BaseRow) : Prop :=
  (row_sum r == inject_Z k)%Q
  ∧ (0 <= n_A r)%Q ∧ (0 <= n_U r)%Q ∧ (0 <= n_C r)%Q ∧ (0 <= n_G r)%Q.

(** * Properties *)

(** ** The error monad *)

Lemma bind_Returned {A B} (m : outcome A) (k : A → outcome B) (b : B) :
  m ≫= k = Returned b ↔ ∃ a, m = Returned a ∧ k a = Returned b.
Proof.
  destruct m as [a|e]; simpl; split.
  - intros H. exists a. auto.
  - intros (a' & Ha & Hk). congruence.
  - discriminate.
  - intros (a' & Ha & _). discriminate.
Qed.

Lemma mapM_pure {A B} (f : A → outcome B) (g : A → B) (l : list A) :
  (∀ x, x ∈ l → f x = Returned (g x)) → mapM f l = Returned (g <$> l).
Proof.
  induction l as [|x l IH]; intros Hf; simpl; [reflexivity|].
  rewrite Hf by left. simpl.
  rewrite IH; [reflexivity|].
  intros y Hy. apply Hf. by right.
Qed.

Lemma Returned_not_fails {A} (a : A) : ¬ fails (Returned a).
Proof. intros [e He]. discriminate. Qed.

(** ** Python numerics *)

Lemma py_int_inject_div (a : Z) (d : positive) :
  py_int (inject_Z a / inject_Z (Zpos d))%Q = Z.quot a (Zpos d).
Proof.
  unfold py_int, Qdiv, Qmult, Qinv, inject_Z. simpl.
  rewrite Z.mul_1_r. reflexivity.
Qed.

Lemma py_int_center (r : Site) :
  py_int (center r) = Z.quot (start r + end_ r) 2.
Proof. unfold center. apply (py_int_inject_div _ 2). Qed.

Lemma center_diff_le (a b : Site) (w : Z) :
  (Qabs (center a - center b) <= inject_Z w)%Q
  ↔ Z.abs ((start a + end_ a) - (start b + end_ b)) <= 2 * w.
Proof.
  unfold center, Qle, Qabs, Qminus, Qplus, Qopp, Qdiv, Qmult, Qinv, inject_Z.
  simpl. lia.
Qed.

Lemma center_diff_eq (a b : Site) (w : Z) :
  (Qabs (center a - center b) == inject_Z w)%Q
  ↔ Z.abs ((start a + end_ a) - (start b + end_ b)) = 2 * w.
Proof.
  unfold center, Qeq, Qabs, Qminus, Qplus, Qopp, Qdiv, Qmult, Qinv, inject_Z.
  simpl. lia.
Qed.

Lemma py_int_center_diff (a b : Site) :
  py_int (Qabs (center a - center b))
  = Z.abs ((start a + end_ a) - (start b + end_ b)) / 2.
Proof.
  unfold py_int, center, Qabs, Qminus, Qplus, Qopp, Qdiv, Qmult, Qinv, inject_Z.
  simpl.
  set (x := start a + end_ a). set (y := start b + end_ b).
  change (Z.pos (1 * 2 * (1 * 2))) with (2 * 2).
  change (Z.pos (1 * 2)) with 2.
  replace (Z.abs (x * 1 * 2 + - (y * 1) * 2)) with (2 * Z.abs (x - y)) by lia.
  rewrite Z.quot_div_nonneg by lia.
  rewrite Z.div_mul_cancel_l by lia. reflexivity.
Qed.
Lemma py_int_fifth (L : Z) :
  0 <= L → py_int (inject_Z L * 0.2)%Q = L / 5.
Proof.
  intros HL. unfold py_int, Qmult, inject_Z. simpl. 
  rewrite Z.quot_div_nonneg by lia.
  replace (L * 2) with (2 * L) by lia.
  change (Z.pos (1 * 10)) with (2 * 5). rewrite Z.div_mul_cancel_l by lia. reflexivity.
Qed.
Lemma py_int_three_fifths (L : Z) :
  0 <= L → py_int (inject_Z L * 0.6)%Q = 3 * L / 5.
Proof.
  intros HL. unfold py_int, Qmult, inject_Z. simpl.
  rewrite Z.quot_div_nonneg by lia.
  replace (L * 6) with (2 * (3 * L)) by lia.
  change (Z.pos (1 * 10)) with (2 * 5). rewrite Z.div_mul_cancel_l by lia. reflexivity.
Qed.
Lemma nearby_mask_iff (psi_row m6a_row : Site) (w : Z) :
  nearby_mask (chrom psi_row) (center psi_row) w m6a_row
  ↔ chrom m6a_row = chrom psi_row
    ∧ (Qabs (center psi_row - center m6a_row) <= inject_Z w)%Q.
Proof.
  unfold nearby_mask.
  rewrite andb_True, bool_decide_spec, Is_true_true, Qle_bool_iff.
  rewrite !center_diff_le.
  split; intros [? ?]; split; auto; lia.
Qed.
(** ** Frames after [__init__] *)

Lemma append_inj_r (pre s1 s2 : string) : pre +:+ s1 = pre +:+ s2 → s1 = s2.
Proof.
  induction pre as [|c pre IH]; simpl; intros H; [exact H|].
  injection H as H. auto.
Qed.

Lemma assign_lookup (pre : string) (df : DataFrame) (i : nat) :
  assign_site_ids pre df !! i = set_site_id (pre +:+ pretty i) <$> df !! i.
Proof.
  exact (list_lookup_imap (fun i r => set_site_id (pre +:+ pretty i) r) df i).
Qed.

Lemma assign_length (pre : string) (df : DataFrame) :
  length (assign_site_ids pre df) = length df.
Proof. unfold assign_site_ids. apply length_imap. Qed.

Lemma assign_elem_of (pre : string) (df : DataFrame) (r' : Site) :
  r' ∈ assign_site_ids pre df
  ↔ ∃ i r, df !! i = Some r ∧ r' = set_site_id (pre +:+ pretty i) r.
Proof.
  rewrite list_elem_of_lookup. split.
  - intros [i Hi]. rewrite assign_lookup in Hi.
    destruct (df !! i) as [r|] eqn:Hr; simplify_eq/=. eauto.
  - intros (i & r & Hr & ->). exists i. rewrite assign_lookup, Hr. done.
Qed.

Lemma assign_has_id (pre : string) (df : DataFrame) :
  Forall has_id (assign_site_ids pre df).
Proof.
  apply Forall_forall. intros r' (i & r & _ & ->)%assign_elem_of.
  unfold has_id. simpl. eauto.
Qed.

Lemma assign_NoDup (pre : string) (df : DataFrame) :
  NoDup (the_id <$> assign_site_ids pre df).
Proof.
  apply NoDup_alt. intros i j x.
  rewrite !list_lookup_fmap, !assign_lookup.
  destruct (df !! i) as [ri|] eqn:Hi; [|discriminate].
  destruct (df !! j) as [rj|] eqn:Hj; [|discriminate].
  simpl. unfold the_id. simpl. intros [= <-] [= H].
  apply append_inj_r in H. by apply (inj pretty) in H.
Qed.

(** ** The pair table *)

Lemma pair_info_has_id (p m : Site) :
  has_id p → has_id m → pair_info p m = Returned (pair_of p m).
Proof.
  intros [x Hx] [y Hy]. unfold pair_info, pair_of, getitem_site_id, the_id.
  rewrite Hx, Hy. reflexivity.
Qed.

Lemma colocalized_pairs_pure (psi m6a : DataFrame) (w : Z) :
  Forall has_id psi → Forall has_id m6a →
  colocalized_pairs psi m6a w = Returned (pairs_of psi m6a w).
Proof.
  intros Hp Hm. unfold colocalized_pairs, pairs_of.
  rewrite (mapM_pure _ (fun p => pair_of p <$> nearby w p m6a)); [reflexivity|].
  intros p Hin. unfold pairs_of_row. apply mapM_pure.
  intros m Hmin. apply pair_info_has_id.
  - rewrite Forall_forall in Hp. auto.
  - rewrite Forall_forall in Hm. apply Hm.
    apply list_elem_of_filter in Hmin. tauto.
Qed.

Lemma find_colocalized_sites_init (A B : DataFrame) (w : Z) :
  find_colocalized_sites (init A B w)
  = Returned (pairs_of (psi_df (init A B w)) (m6a_df (init A B w)) w,
              set_colocalized
                (pairs_of (psi_df (init A B w)) (m6a_df (init A B w)) w)
                (init A B w)).
Proof.
  unfold find_colocalized_sites.
  rewrite colocalized_pairs_pure; [reflexivity| |]; apply assign_has_id.
Qed.

Lemma pairs_of_elem_of (psi m6a : DataFrame) (w : Z) (pr : Pair) :
  pr ∈ pairs_of psi m6a w
  ↔ ∃ p m, p ∈ psi ∧ m ∈ m6a ∧ pr = pair_of p m
           ∧ chrom m = chrom p ∧ (center_distance p m <= inject_Z w)%Q.
Proof.
  unfold pairs_of, nearby. rewrite list_elem_of_In, in_concat. split.
  - intros (l & Hl & Hpr). apply list_elem_of_In in Hl, Hpr.
    apply list_elem_of_fmap in Hl as (p & -> & Hp).
    apply list_elem_of_fmap in Hpr as (m & -> & Hm).
    apply list_elem_of_filter in Hm as [Hn Hm].
    apply nearby_mask_iff in Hn as [? ?]. eauto 10.
  - intros (p & m & Hp & Hm & -> & Hc & Hd).
    exists (pair_of p <$> filter (nearby_mask (chrom p) (center p) w) m6a).
    split; apply list_elem_of_In.
    + apply list_elem_of_fmap. eauto.
    + apply list_elem_of_fmap. exists m. split; [done|].
      apply list_elem_of_filter. split; [|done].
      apply nearby_mask_iff. auto.
Qed.
(** ** Counting in tables with unique keys *)

Section unique_key.
Context {A K : Type} `{EqDecision K} (key : A → K).

Lemma filter_none (P : A → Prop) `{∀ x, Decision (P x)} (l : list A) :
  (∀ x, x ∈ l → ¬ P x) → filter P l = [].
Proof.
  induction l as [|x l IH]; intros Hl; [reflexivity|].
  rewrite filter_cons_False by (apply Hl; left).
  apply IH. intros y Hy. apply Hl. by right.
Qed.

Lemma NoDup_key_middle (l1 l2 : list A) (a x : A) :
  NoDup (key <$> (l1 ++ a :: l2)) → x ∈ l1 ++ l2 → key x ≠ key a.
Proof.
  rewrite fmap_app, fmap_cons, NoDup_app, NoDup_cons.
  intros (_ & Hdisj & Ha & _) Hx Heq.
  apply elem_of_app in Hx as [Hx|Hx].
  - apply (Hdisj (key x)); [by apply list_elem_of_fmap_2|].
    rewrite Heq. left.
  - apply Ha. rewrite <- Heq. by apply list_elem_of_fmap_2.
Qed.

Lemma filter_unique_key (P : A → Prop) `{∀ x, Decision (P x)}
    (l : list A) (i : nat) (a : A) :
  NoDup (key <$> l) → l !! i = Some a →
  filter (fun x => key x = key a ∧ P x) l = if decide (P a) then [a] else [].
Proof.
  intros Hnd Hi. rewrite <- (take_drop_middle l i a Hi) in Hnd |- *.
  rewrite filter_app, filter_cons.
  rewrite !filter_none.
  - simpl. destruct (decide (P a)); case_decide; tauto.
  - intros x Hx [Hk _]. revert Hk.
    eapply NoDup_key_middle; [exact Hnd|]. apply elem_of_app. by right.
  - intros x Hx [Hk _]. revert Hk.
    eapply NoDup_key_middle; [exact Hnd|]. apply elem_of_app. by left.
Qed.
End unique_key.

Lemma filter_fmap_comm {A B} (f : A → B) (P : B → Prop) `{∀ y, Decision (P y)}
    (l : list A) :
  filter P (f <$> l) = f <$> filter (fun x => P (f x)) l.
Proof.
  induction l as [|x l IH]; [reflexivity|].
  rewrite fmap_cons, !filter_cons, IH. simpl.
  destruct (decide (P (f x))); reflexivity.
Qed.

Lemma pair_row_count (w : Z) (p m : Site) (m6a : DataFrame) (j : nat) :
  NoDup (the_id <$> m6a) → m6a !! j = Some m →
  filter (joins (the_id p) (the_id m)) (pair_of p <$> nearby w p m6a)
  = if decide (nearby_mask (chrom p) (center p) w m) then [pair_of p m] else [].
Proof.
  intros Hnd Hj. unfold nearby.
  rewrite filter_fmap_comm, list_filter_filter.
  rewrite (list_filter_iff _
             (fun x => the_id x = the_id m
                       ∧ nearby_mask (chrom p) (center p) w x)).
  - rewrite (filter_unique_key the_id _ m6a j m Hnd Hj).
    case_decide; reflexivity.
  - intros x. unfold joins. simpl. tauto.
Qed.

Lemma pair_count_pairs_of (w : Z) (psi m6a : DataFrame) (i j : nat) (p m : Site) :
  NoDup (the_id <$> psi) → NoDup (the_id <$> m6a) →
  psi !! i = Some p → m6a !! j = Some m →
  pair_count (the_id p) (the_id m) (pairs_of psi m6a w)
  = if decide (nearby_mask (chrom p) (center p) w m) then 1%nat else 0%nat.
Proof.
  intros Hp Hm Hi Hj. unfold pair_count, pairs_of.
  rewrite <- (take_drop_middle psi i p Hi) in Hp |- *.
  rewrite fmap_app, fmap_cons, concat_app, concat_cons, !filter_app.
  assert (Hother : ∀ l, (∀ x, x ∈ l → the_id x ≠ the_id p) →
    filter (joins (the_id p) (the_id m))
      (concat ((fun p0 => pair_of p0 <$> nearby w p0 m6a) <$> l)) = []).
  { intros l Hl. apply filter_none. intros pr Hpr [Hid _].
    apply list_elem_of_In, in_concat in Hpr as (ps & Hps & Hpr).
    apply list_elem_of_In in Hps, Hpr.
    apply list_elem_of_fmap in Hps as (p0 & -> & Hp0).
    apply list_elem_of_fmap in Hpr as (m0 & -> & _).
    exact (Hl p0 Hp0 Hid). }
  rewrite !Hother.
  - rewrite (pair_row_count w p m m6a j Hm Hj). simpl.
    rewrite app_nil_r. case_decide; reflexivity.
  - intros x Hx. eapply NoDup_key_middle; [exact Hp|].
    apply elem_of_app. by right.
  - intros x Hx. eapply NoDup_key_middle; [exact Hp|].
    apply elem_of_app. by left.
Qed.
(** ** The pair table of an analyzer built by [__init__] *)

Lemma init_pairs_elem_of (A B : DataFrame) (w : Z) (pr : Pair) :
  pr ∈ pairs_of (psi_df (init A B w)) (m6a_df (init A B w)) w
  ↔ ∃ i j a b, A !! i = Some a ∧ B !! j = Some b
      ∧ pr = pair_of (set_site_id ("PSI_" +:+ pretty i) a)
                     (set_site_id ("M6A_" +:+ pretty j) b)
      ∧ chrom a = chrom b ∧ (center_distance a b <= inject_Z w)%Q.
Proof.
  rewrite pairs_of_elem_of. simpl. split.
  - intros (p & m & Hp & Hm & -> & Hc & Hd).
    apply assign_elem_of in Hp as (i & a & Ha & ->).
    apply assign_elem_of in Hm as (j & b & Hb & ->).
    exists i, j, a, b. auto 10.
  - intros (i & j & a & b & Ha & Hb & -> & Hc & Hd).
    eexists _, _. split; [|split; [|split; [reflexivity|]]].
    + apply assign_elem_of. eauto.
    + apply assign_elem_of. eauto.
    + auto.
Qed.

Lemma init_pair_count (A B : DataFrame) (w : Z) (i j : nat) (a b : Site) :
  A !! i = Some a → B !! j = Some b →
  pair_count ("PSI_" +:+ pretty i) ("M6A_" +:+ pretty j)
    (pairs_of (psi_df (init A B w)) (m6a_df (init A B w)) w)
  = if decide (nearby_mask (chrom a) (center a) w b) then 1%nat else 0%nat.
Proof.
  intros Ha Hb. simpl.
  apply (pair_count_pairs_of w (assign_site_ids "PSI_" A)
           (assign_site_ids "M6A_" B) i j
           (set_site_id ("PSI_" +:+ pretty i) a)
           (set_site_id ("M6A_" +:+ pretty j) b)).
  - apply assign_NoDup.
  - apply assign_NoDup.
  - rewrite assign_lookup, Ha. reflexivity.
  - rewrite assign_lookup, Hb. reflexivity.
Qed.

(** C1. For all site collections [A], [B] with coordinates of magnitude at
    most [2^50] and every window [w] of magnitude at most [2^53] (in
    particular every such [w >= 0]) the matcher returns a pair table in
    which the sites [A[i]] and [B[j]] are joined by exactly one pair when
    they lie on the same chromosome and their centres are at most [w]
    apart, and by no pair otherwise; every emitted pair joins such a
    combination (all-pairs matching: nothing limits how many pairs one site
    takes part in).  Two same-chromosome sites whose centres are exactly
    [w] apart are paired, two that are [w + 1] apart are not.  The bounds
    are those within which the doubles of the code are the exact centres. *)
Theorem matcher_all_pairs (A B : DataFrame) (w : Z)
    (Hexact : exact_inputs A B w) :
  ∃ ps an,
    find_colocalized_sites (init A B w) = Returned (ps, an)
    ∧ (∀ i j a b, A !! i = Some a → B !! j = Some b →
         let n := pair_count ("PSI_" +:+ pretty i) ("M6A_" +:+ pretty j) ps in
         (chrom a = chrom b ∧ (center_distance a b <= inject_Z w)%Q → n = 1%nat)
         ∧ (¬ (chrom a = chrom b ∧ (center_distance a b <= inject_Z w)%Q)
            → n = 0%nat)
         ∧ (chrom a = chrom b → (center_distance a b == inject_Z w)%Q
            → n = 1%nat)
         ∧ (chrom a = chrom b → (center_distance a b == inject_Z (w + 1))%Q
            → n = 0%nat))
    ∧ (∀ p, p ∈ ps →
         ∃ i j a b, A !! i = Some a ∧ B !! j = Some b
           ∧ psi_id p = "PSI_" +:+ pretty i ∧ m6a_id p = "M6A_" +:+ pretty j
           ∧ chrom a = chrom b ∧ (center_distance a b <= inject_Z w)%Q).
Proof.
  eexists _, _. split; [apply find_colocalized_sites_init|]. split.
  - intros i j a b Ha Hb n.
    assert (Hn : n = if decide (nearby_mask (chrom a) (center a) w b)
                     then 1%nat else 0%nat)
      by (apply init_pair_count; assumption).
    assert (Hiff : nearby_mask (chrom a) (center a) w b
                   ↔ chrom a = chrom b ∧ (center_distance a b <= inject_Z w)%Q).
    { rewrite nearby_mask_iff. unfold center_distance. intuition congruence. }
    rewrite Hn. repeat split.
    + intros H. rewrite decide_True; [reflexivity | by apply Hiff].
    + intros H. rewrite decide_False; [reflexivity | by rewrite Hiff].
    + intros Hc Hd. rewrite decide_True; [reflexivity|].
      apply Hiff. split; [done|]. rewrite Hd. apply Qle_refl.
    + intros Hc Hd. rewrite decide_False; [reflexivity|].
      rewrite Hiff. intros [_ Hle]. unfold center_distance in *.
      apply center_diff_le in Hle. apply center_diff_eq in Hd. lia.
  - intros p (i & j & a & b & Ha & Hb & -> & Hc & Hd)%init_pairs_elem_of.
    exists i, j, a, b. auto 10.
Qed.

Lemma matcher_all_pairs_witness :
  exact_inputs sample_psi sample_m6a 50
  ∧ ∃ ps an,
      find_colocalized_sites (init sample_psi sample_m6a 50) = Returned (ps, an)
      ∧ pair_count "PSI_0" "M6A_0" ps = 1%nat
      ∧ pair_count "PSI_0" "M6A_2" ps = 0%nat.
Proof.
  assert (Hexact : exact_inputs sample_psi sample_m6a 50)
    by (repeat split; repeat constructor; discriminate).
  split; [exact Hexact|].
  destruct (matcher_all_pairs sample_psi sample_m6a 50 Hexact)
    as (ps & an & Hrun & Hcount & _).
  exists ps, an. split; [exact Hrun|]. split.
  - destruct (Hcount 0%nat 0%nat (site_at "chr1" 1500 "PSI_1")
                (site_at "chr1" 1530 "M6A_1") eq_refl eq_refl) as (H1 & _).
    apply H1. split; [reflexivity | vm_compute; discriminate].
  - destruct (Hcount 0%nat 2%nat (site_at "chr1" 1500 "PSI_1")
                (site_at "chr1" 1600 "M6A_3") eq_refl eq_refl) as (_ & H0 & _).
    apply H0. intros [_ Hle]. vm_compute in Hle. apply Hle. reflexivity.
Defined.

(** C9. For all site collections and all windows [w1 < w2], every pair the
    matcher emits with window [w1] is also emitted with window [w2]. *)
Theorem matcher_monotone (A B : DataFrame) (w1 w2 : Z) :
  w1 < w2 →
  ∃ ps1 an1 ps2 an2,
    find_colocalized_sites (init A B w1) = Returned (ps1, an1)
    ∧ find_colocalized_sites (init A B w2) = Returned (ps2, an2)
    ∧ ps1 ⊆ ps2.
Proof.
  intros Hw. eexists _, _, _, _.
  split; [apply find_colocalized_sites_init|].
  split; [apply find_colocalized_sites_init|].
  intros p (i & j & a & b & Ha & Hb & -> & Hc & Hd)%init_pairs_elem_of.
  apply init_pairs_elem_of. exists i, j, a, b.
  repeat (split; [done|]).
  eapply Qle_trans; [exact Hd|]. rewrite <- Zle_Qle. lia.
Qed.

(** ** Categorizing and counting *)

Lemma column_site_id_pure (df : DataFrame) :
  Forall has_id df → column_site_id df = Returned (the_id <$> df).
Proof.
  intros Hdf. unfold column_site_id. apply mapM_pure.
  intros r Hr. rewrite Forall_forall in Hdf. destruct (Hdf r Hr) as [s Hs].
  unfold getitem_site_id, the_id. rewrite Hs. reflexivity.
Qed.

Lemma boolean_index_fmap {Row} (f : Row → bool) (df : list Row) :
  boolean_index df (f <$> df) = filter (fun r => Is_true (f r)) df.
Proof.
  unfold boolean_index. induction df as [|r df IH]; [reflexivity|].
  rewrite fmap_cons. cbn [zip zip_with]. rewrite !filter_cons. cbn [snd fst].
  destruct (decide (f r)); [rewrite fmap_cons|]; rewrite IH; reflexivity.
Qed.

Lemma not_isin_mask (ids : gset string) (df : DataFrame) :
  boolean_index df (negb <$> isin ids (the_id <$> df)) = unmatched ids df.
Proof.
  unfold isin, unmatched. rewrite <- !list_fmap_compose.
  rewrite boolean_index_fmap. apply list_filter_iff.
  intros r. simpl. rewrite negb_True, bool_decide_spec. reflexivity.
Qed.

Lemma categorize_sites_pure (self : ColocalizationAnalyzer) (ps : list Pair) :
  colocalized_sites self = Some ps →
  Forall has_id (psi_df self) → Forall has_id (m6a_df self) →
  categorize_sites self
  = Returned (set_only (unmatched (id_set (psi_id <$> ps)) (psi_df self))
                       (unmatched (id_set (m6a_id <$> ps)) (m6a_df self))
                       self).
Proof.
  intros Hps Hp Hm. unfold categorize_sites, ensure_colocalized.
  rewrite Hps. simpl.
  rewrite (column_site_id_pure _ Hp). simpl.
  rewrite (column_site_id_pure _ Hm). simpl.
  rewrite !not_isin_mask. reflexivity.
Qed.

Lemma run_analysis_eq (A B : DataFrame) (w : Z) :
  let A' := assign_site_ids "PSI_" A in
  let B' := assign_site_ids "M6A_" B in
  let ps := pairs_of A' B' w in
  let po := unmatched (id_set (psi_id <$> ps)) A' in
  let mo := unmatched (id_set (m6a_id <$> ps)) B' in
  run_analysis A B w
  = Returned (ps,
              (length po, length mo, size (id_set (psi_id <$> ps))),
              {| psi_df := A'; m6a_df := B'; window := w;
                 colocalized_sites := Some ps;
                 psi_only := Some po; m6a_only := Some mo |}).
Proof.
  intros A' B' ps po mo. unfold run_analysis.
  rewrite find_colocalized_sites_init. simpl.
  rewrite (categorize_sites_pure _ ps); [|reflexivity|apply assign_has_id..].
  reflexivity.
Qed.

Lemma size_id_set_le (ids : list string) : (size (id_set ids) ≤ length ids)%nat.
Proof.
  unfold id_set. induction ids as [|x ids IH].
  - rewrite list_to_set_nil, size_empty. reflexivity.
  - rewrite list_to_set_cons, size_union_alt, size_singleton.
    assert (Hle : (size (list_to_set ids ∖ {[x]} : gset string)
                   ≤ size (list_to_set ids : gset string))%nat).
    { apply subseteq_size, subseteq_difference_l. reflexivity. }
    simpl. lia.
Qed.

(** In a table with unique ids, the distinct ids that occur in [ids] and
    the rows that are not selected by [unmatched] add up to the table. *)
Lemma size_matched (ids : gset string) (df : DataFrame) :
  NoDup (the_id <$> df) →
  (∀ x, x ∈ ids → ∃ r, r ∈ df ∧ the_id r = x) →
  (size ids + length (unmatched ids df) = length df)%nat.
Proof.
  intros Hnd Hids.
  set (matched := filter (fun r => the_id r ∈ ids) df).
  assert (Hset : ids = list_to_set (the_id <$> matched)).
  { apply set_eq. intros x. rewrite elem_of_list_to_set, list_elem_of_fmap.
    split.
    - intros Hx. destruct (Hids x Hx) as (r & Hr & <-).
      exists r. split; [done|]. apply list_elem_of_filter. auto.
    - intros (r & -> & Hr). apply list_elem_of_filter in Hr. tauto. }
  assert (Hndm : NoDup (the_id <$> matched)).
  { apply (sublist_NoDup (the_id <$> matched) (the_id <$> df));
      [exact Hnd | apply fmap_sublist, sublist_filter]. }
  assert (Hlen : (length matched + length (unmatched ids df) = length df)%nat).
  { rewrite <- length_app. apply Permutation_length.
    apply (filter_app_complement (fun r => the_id r ∈ ids)). }
  rewrite Hset at 1. rewrite size_list_to_set by exact Hndm.
  rewrite length_fmap. exact Hlen.
Qed.
Lemma unmatched_elem_of (ids : list string) (df : DataFrame) (r : Site) :
  Forall has_id df →
  r ∈ unmatched (id_set ids) df
  ↔ r ∈ df ∧ ¬ ∃ x, x ∈ ids ∧ site_id r = Some x.
Proof.
  intros Hdf. unfold unmatched, id_set.
  rewrite list_elem_of_filter, elem_of_list_to_set. split.
  - intros [Hn Hr]. split; [done|]. intros (x & Hx & Hid).
    apply Hn. unfold the_id. rewrite Hid. exact Hx.
  - intros [Hr Hn]. split; [|done]. intros Hin. apply Hn.
    rewrite Forall_forall in Hdf. destruct (Hdf r Hr) as [s Hs].
    exists s. split; [|done]. unfold the_id in Hin. rewrite Hs in Hin. exact Hin.
Qed.

(** C3 (as the code has it). For every run of the matcher the three counts
    are the number of unmatched A-sites, the number of unmatched B-sites and
    the number of distinct A-sites that take part in at least one pair (not
    the number of pairs, which it never exceeds); a site is unmatched exactly
    when no emitted pair carries its id, so the third count and the first add
    up to the size of A. *)
Theorem venn_counts (A B : DataFrame) (w : Z) :
  ∃ ps po mo n3 an,
    run_analysis A B w = Returned (ps, (length po, length mo, n3), an)
    ∧ colocalized_sites an = Some ps
    ∧ psi_only an = Some po ∧ m6a_only an = Some mo
    ∧ (∀ r, r ∈ po ↔ r ∈ psi_df an
                      ∧ ¬ ∃ p, p ∈ ps ∧ site_id r = Some (psi_id p))
    ∧ (∀ r, r ∈ mo ↔ r ∈ m6a_df an
                      ∧ ¬ ∃ p, p ∈ ps ∧ site_id r = Some (m6a_id p))
    ∧ n3 = size (id_set (psi_id <$> ps))
    ∧ (n3 + length po = length A)%nat
    ∧ (n3 ≤ length ps)%nat.
Proof.
  eexists _, _, _, _, _. split; [apply run_analysis_eq|].
  cbn [colocalized_sites psi_only m6a_only psi_df m6a_df].
  split; [reflexivity|]. split; [reflexivity|]. split; [reflexivity|].
  split; [|split; [|split; [reflexivity|split]]].
  - intros r. rewrite unmatched_elem_of by apply assign_has_id.
    apply and_iff_compat_l, not_iff_compat. split.
    + intros (x & (p & -> & Hp)%list_elem_of_fmap & Hid). eauto.
    + intros (p & Hp & Hid). exists (psi_id p).
      split; [by apply list_elem_of_fmap_2|done].
  - intros r. rewrite unmatched_elem_of by apply assign_has_id.
    apply and_iff_compat_l, not_iff_compat. split.
    + intros (x & (p & -> & Hp)%list_elem_of_fmap & Hid). eauto.
    + intros (p & Hp & Hid). exists (m6a_id p).
      split; [by apply list_elem_of_fmap_2|done].
  - rewrite <- (assign_length "PSI_" A). apply size_matched.
    + apply assign_NoDup.
    + intros x Hx. unfold id_set in Hx.
      apply elem_of_list_to_set, list_elem_of_fmap in Hx as (pr & -> & Hpr).
      apply pairs_of_elem_of in Hpr as (p & m & Hp & _ & -> & _).
      exists p. split; [done|reflexivity].
  - rewrite <- (length_fmap psi_id). apply size_id_set_le.
Qed.

(** C3, as stated, fails: one A-site within the window of two B-sites gives
    two pairs, and the third count is 1. *)
Lemma venn_overlap_is_not_pair_count :
  ∃ ps n1 n2 n3 an,
    run_analysis sample_psi sample_m6a 50 = Returned (ps, (n1, n2, n3), an)
    ∧ length ps = 2%nat ∧ n3 = 1%nat ∧ n3 ≠ length ps.
Proof.
  eexists _, _, _, _, _. split; [vm_compute; reflexivity|].
  split; [reflexivity|]. split; [reflexivity|]. simpl. lia.
Qed.

(** ** RealDataAnalyzer.colocalization_analysis *)

Lemma rd_getitem_std (r : RealData.Row) :
  rd_complete r → RealData.getitem RealData.chrom_std r = Returned (rd_std r).
Proof.
  intros [[c Hc] _]. unfold RealData.getitem, rd_std. rewrite Hc. reflexivity.
Qed.

Lemma rd_getitem_center (r : RealData.Row) :
  rd_complete r → RealData.getitem RealData.center r = Returned (rd_center r).
Proof.
  intros [_ [c Hc]]. unfold RealData.getitem, rd_center. rewrite Hc. reflexivity.
Qed.

Lemma rd_on_chrom_pure (df : list RealData.Row) (c : string) :
  Forall rd_complete df →
  RealData.on_chrom df c = Returned (filter (fun r => rd_std r = c) df).
Proof.
  intros Hdf. unfold RealData.on_chrom.
  rewrite (mapM_pure _ rd_std).
  - cbn [mbind outcome_bind]. rewrite <- list_fmap_compose.
    rewrite boolean_index_fmap. f_equal. apply list_filter_iff.
    intros r. simpl. apply bool_decide_spec.
  - intros r Hr. apply rd_getitem_std. rewrite Forall_forall in Hdf. auto.
Qed.

Lemma rd_nearby_pure (m6a_chrom : list RealData.Row) (psi_pos w : Z) :
  Forall rd_complete m6a_chrom →
  RealData.nearby m6a_chrom psi_pos w
  = Returned (filter (fun m => Z.abs (rd_center m - psi_pos) <= w) m6a_chrom).
Proof.
  intros Hdf. unfold RealData.nearby.
  rewrite (mapM_pure _ rd_center).
  - cbn [mbind outcome_bind]. rewrite <- list_fmap_compose.
    rewrite boolean_index_fmap. f_equal. apply list_filter_iff.
    intros r. simpl. apply bool_decide_spec.
  - intros r Hr. apply rd_getitem_center. rewrite Forall_forall in Hdf. auto.
Qed.

Lemma rd_row_step_pure (c : string) (m6a_chrom : list RealData.Row) (w : Z)
    (acc : nat * list RealData.PairRow) (psi_row : RealData.Row) :
  rd_complete psi_row → Forall rd_complete m6a_chrom →
  RealData.row_step c m6a_chrom w acc psi_row
  = Returned ((fst acc + length (rd_pairs_row c m6a_chrom w psi_row))%nat,
              snd acc ++ rd_pairs_row c m6a_chrom w psi_row).
Proof.
  intros Hp Hm. unfold RealData.row_step.
  rewrite (rd_getitem_center _ Hp). cbn [mbind outcome_bind].
  rewrite (rd_nearby_pure _ _ _ Hm). cbn [mbind outcome_bind].
  unfold rd_pairs_row.
  set (near := filter (fun m => Z.abs (rd_center m - rd_center psi_row) <= w)
                 m6a_chrom).
  assert (Hnear : Forall rd_complete near).
  { apply Forall_forall. intros m [_ Hin]%list_elem_of_filter.
    rewrite Forall_forall in Hm. auto. }
  rewrite length_fmap. case_bool_decide as Hlen.
  - rewrite (mapM_pure _
               (fun m => RealData.mkPairRow c (rd_center psi_row) (rd_center m)
                           (Z.abs (rd_center psi_row - rd_center m)))).
    + reflexivity.
    + intros m Hin. rewrite rd_getitem_center; [reflexivity|].
      rewrite Forall_forall in Hnear. auto.
  - destruct near; [|simpl in Hlen; lia].
    destruct acc as [n ps]. simpl. rewrite Nat.add_0_r, app_nil_r. reflexivity.
Qed.

Lemma rd_fold_rows (c : string) (m6a_chrom : list RealData.Row) (w : Z)
    (psi_chrom : list RealData.Row) (acc : nat * list RealData.PairRow) :
  Forall rd_complete psi_chrom → Forall rd_complete m6a_chrom →
  foldM (RealData.row_step c m6a_chrom w) acc psi_chrom
  = Returned
      ((fst acc + length (concat (rd_pairs_row c m6a_chrom w <$> psi_chrom)))%nat,
       snd acc ++ concat (rd_pairs_row c m6a_chrom w <$> psi_chrom)).
Proof.
  intros Hp Hm. revert acc.
  induction Hp as [|r l Hr Hl IH]; intros [n ps].
  - simpl. rewrite Nat.add_0_r, app_nil_r. reflexivity.
  - cbn [foldM]. rewrite (rd_row_step_pure _ _ _ _ _ Hr Hm).
    cbn [mbind outcome_bind]. rewrite IH.
    rewrite fmap_cons. cbn [concat fst snd].
    rewrite length_app, Nat.add_assoc, app_assoc. reflexivity.
Qed.

Lemma rd_chrom_step_pure (psi m6a : list RealData.Row) (w : Z) (c : string)
    (acc : nat * list RealData.PairRow) :
  Forall rd_complete psi → Forall rd_complete m6a →
  RealData.chrom_step psi m6a w acc c
  = Returned ((fst acc + length (rd_pairs_chrom psi m6a w c))%nat,
              snd acc ++ rd_pairs_chrom psi m6a w c).
Proof.
  intros Hp Hm. unfold RealData.chrom_step.
  rewrite (rd_on_chrom_pure _ _ Hp). cbn [mbind outcome_bind].
  rewrite (rd_on_chrom_pure _ _ Hm). cbn [mbind outcome_bind].
  apply rd_fold_rows.
  - apply Forall_forall. intros r [_ Hin]%list_elem_of_filter.
    rewrite Forall_forall in Hp. auto.
  - apply Forall_forall. intros r [_ Hin]%list_elem_of_filter.
    rewrite Forall_forall in Hm. auto.
Qed.

Lemma rd_fold_chroms (psi m6a : list RealData.Row) (w : Z)
    (chroms : list string) (acc : nat * list RealData.PairRow) :
  Forall rd_complete psi → Forall rd_complete m6a →
  foldM (RealData.chrom_step psi m6a w) acc chroms
  = Returned
      ((fst acc + length (concat (rd_pairs_chrom psi m6a w <$> chroms)))%nat,
       snd acc ++ concat (rd_pairs_chrom psi m6a w <$> chroms)).
Proof.
  intros Hp Hm. revert acc.
  induction chroms as [|c chroms IH]; intros [n ps].
  - simpl. rewrite Nat.add_0_r, app_nil_r. reflexivity.
  - cbn [foldM]. rewrite (rd_chrom_step_pure _ _ _ _ _ Hp Hm).
    cbn [mbind outcome_bind]. rewrite IH.
    rewrite fmap_cons. cbn [concat fst snd].
    rewrite length_app, Nat.add_assoc, app_assoc. reflexivity.
Qed.

Lemma rd_after_complete (psi m6a : list RealData.Row) :
  Forall rd_complete (rd_psi_after <$> psi)
  ∧ Forall rd_complete (rd_m6a_after <$> m6a).
Proof.
  split; apply Forall_fmap, Forall_forall; intros r _;
    split; simpl; eauto.
Qed.

(** What the method returns when every m6A row has a [peak_pos]. *)
Lemma rd_colocalization_analysis_eq (self : RealData.RealDataAnalyzer) (w : Z) :
  Forall (fun r => is_Some (RealData.peak_pos r)) (RealData.m6a_df self) →
  let psi2 := rd_psi_after <$> RealData.psi_df self in
  let m6a2 := rd_m6a_after <$> RealData.m6a_df self in
  let chroms : gset string :=
    list_to_set (rd_std <$> psi2) ∩ list_to_set (rd_std <$> m6a2) in
  let pairs := concat (rd_pairs_chrom psi2 m6a2 w <$> elements chroms) in
  RealData.colocalization_analysis self w
  = Returned ((length pairs, length (RealData.psi_df self),
               length (RealData.m6a_df self)),
              pairs,
              {| RealData.psi_df := psi2; RealData.m6a_df := m6a2 |}).
Proof.
  intros Hpk psi2 m6a2 chroms pairs.
  destruct (rd_after_complete (RealData.psi_df self) (RealData.m6a_df self))
    as [Hp Hm]. fold psi2 in Hp. fold m6a2 in Hm.
  unfold RealData.colocalization_analysis.
  rewrite <- !list_fmap_compose.
  change ((fun r => RealData.set_center ((RealData.start r + RealData.end_ r) / 2) r)
          ∘ (fun r => RealData.set_chrom_std (RealData.replace_chr (RealData.chrom r)) r))
    with rd_psi_after.
  fold psi2.
  rewrite (mapM_pure _ (fun r => RealData.set_center (default 0 (RealData.peak_pos r)) r)).
  2:{ intros r (r0 & -> & Hr0)%list_elem_of_fmap.
      rewrite Forall_forall in Hpk. destruct (Hpk r0 Hr0) as [v Hv].
      unfold RealData.getitem. simpl. rewrite Hv. reflexivity. }
  cbn [mbind outcome_bind]. rewrite <- list_fmap_compose.
  change ((fun r => RealData.set_center (default 0 (RealData.peak_pos r)) r)
          ∘ (fun r => RealData.set_chrom_std (RealData.replace_chr (RealData.chrom r)) r))
    with rd_m6a_after.
  fold m6a2.
  rewrite (mapM_pure _ rd_std psi2)
    by (intros r Hr; apply rd_getitem_std; rewrite Forall_forall in Hp; auto).
  cbn [mbind outcome_bind].
  rewrite (mapM_pure _ rd_std m6a2)
    by (intros r Hr; apply rd_getitem_std; rewrite Forall_forall in Hm; auto).
  cbn [mbind outcome_bind]. fold chroms.
  rewrite (rd_fold_chroms _ _ _ _ _ Hp Hm). cbn [mbind outcome_bind fst snd].
  fold pairs. unfold psi2, m6a2. rewrite !length_fmap. reflexivity.
Qed.

Lemma elem_of_concat_fmap {A B} (f : A → list B) (l : list A) (x : B) :
  x ∈ concat (f <$> l) ↔ ∃ y, y ∈ l ∧ x ∈ f y.
Proof.
  rewrite list_elem_of_In, in_concat. split.
  - intros (k & Hk & Hx). apply list_elem_of_In in Hk, Hx.
    apply list_elem_of_fmap in Hk as (y & -> & Hy). eauto.
  - intros (y & Hy & Hx). exists (f y).
    split; apply list_elem_of_In; [by apply list_elem_of_fmap_2|done].
Qed.

(** The second matcher pairs every Ψ row with every m6A row of the same
    standardized chromosome whose [peak_pos] is within the window of the
    row's integer midpoint; its frames only gain the columns [chrom_std] and
    [center]. *)
Lemma rd_colocalization_analysis_spec (self : RealData.RealDataAnalyzer) (w : Z) :
  Forall (fun r => is_Some (RealData.peak_pos r)) (RealData.m6a_df self) →
  ∃ pairs an,
    RealData.colocalization_analysis self w
    = Returned ((length pairs, length (RealData.psi_df self),
                 length (RealData.m6a_df self)), pairs, an)
    ∧ (∀ pr, pr ∈ pairs ↔
         ∃ p m c, p ∈ RealData.psi_df self ∧ m ∈ RealData.m6a_df self
           ∧ RealData.replace_chr (RealData.chrom p)
             = RealData.replace_chr (RealData.chrom m)
           ∧ RealData.peak_pos m = Some c
           ∧ Z.abs (c - (RealData.start p + RealData.end_ p) / 2) <= w
           ∧ pr = RealData.mkPairRow
                    (RealData.replace_chr (RealData.chrom p))
                    ((RealData.start p + RealData.end_ p) / 2) c
                    (Z.abs ((RealData.start p + RealData.end_ p) / 2 - c)))
    ∧ RealData.psi_df an = rd_psi_after <$> RealData.psi_df self
    ∧ RealData.m6a_df an = rd_m6a_after <$> RealData.m6a_df self.
Proof.
  intros Hpk. eexists _, _.
  split; [apply (rd_colocalization_analysis_eq self w Hpk)|].
  split; [|split; reflexivity].
  intros pr. rewrite elem_of_concat_fmap. split.
  - intros (c & _ & Hpr). unfold rd_pairs_chrom in Hpr.
    apply elem_of_concat_fmap in Hpr as (p' & Hp' & Hpr).
    apply list_elem_of_filter in Hp' as [Hcp Hp'].
    apply list_elem_of_fmap in Hp' as (p & -> & Hp).
    unfold rd_pairs_row in Hpr.
    apply list_elem_of_fmap in Hpr as (m' & -> & Hm').
    apply list_elem_of_filter in Hm' as [Hd Hm'].
    apply list_elem_of_filter in Hm' as [Hcm Hm'].
    apply list_elem_of_fmap in Hm' as (m & -> & Hm).
    rewrite Forall_forall in Hpk. destruct (Hpk m Hm) as [v Hv].
    exists p, m, v. unfold rd_std, rd_center in *. simpl in *.
    rewrite Hv in *. simpl in *. subst c.
    repeat (split; [done|]). reflexivity.
  - intros (p & m & c & Hp & Hm & Hc & Hv & Hd & ->).
    exists (RealData.replace_chr (RealData.chrom p)). split.
    + apply elem_of_elements, elem_of_intersection.
      split; apply elem_of_list_to_set, list_elem_of_fmap.
      * exists (rd_psi_after p). split; [reflexivity|].
        by apply list_elem_of_fmap_2.
      * exists (rd_m6a_after m). split; [exact Hc|].
        by apply list_elem_of_fmap_2.
    + unfold rd_pairs_chrom. apply elem_of_concat_fmap.
      exists (rd_psi_after p). split.
      * apply list_elem_of_filter. split; [reflexivity|].
        by apply list_elem_of_fmap_2.
      * unfold rd_pairs_row. apply list_elem_of_fmap.
        exists (rd_m6a_after m). split.
        -- unfold rd_center. simpl. rewrite Hv. reflexivity.
        -- apply list_elem_of_filter. split.
           ++ unfold rd_center. simpl. rewrite Hv. exact Hd.
           ++ apply list_elem_of_filter. split; [symmetry; exact Hc|].
              by apply list_elem_of_fmap_2.
Qed.

(** The columns the second matcher writes are the only fields it changes. *)
Lemma rd_after_fields (r : RealData.Row) :
  (RealData.chrom (rd_psi_after r) = RealData.chrom r
   ∧ RealData.start (rd_psi_after r) = RealData.start r
   ∧ RealData.end_ (rd_psi_after r) = RealData.end_ r
   ∧ RealData.peak_pos (rd_psi_after r) = RealData.peak_pos r
   ∧ RealData.chrom_std (rd_psi_after r)
     = Some (RealData.replace_chr (RealData.chrom r))
   ∧ RealData.center (rd_psi_after r)
     = Some ((RealData.start r + RealData.end_ r) / 2))
  ∧ (RealData.chrom (rd_m6a_after r) = RealData.chrom r
     ∧ RealData.start (rd_m6a_after r) = RealData.start r
     ∧ RealData.end_ (rd_m6a_after r) = RealData.end_ r
     ∧ RealData.peak_pos (rd_m6a_after r) = RealData.peak_pos r
     ∧ RealData.chrom_std (rd_m6a_after r)
       = Some (RealData.replace_chr (RealData.chrom r))
     ∧ (∀ c, RealData.peak_pos r = Some c →
             RealData.center (rd_m6a_after r) = Some c)).
Proof.
  repeat split. intros c Hc. simpl. rewrite Hc. reflexivity.
Qed.

(** C6 (as the code has it). A run of the matcher changes the input frames
    in one way only, by writing helper columns.  The constructor of
    [ColocalizationAnalyzer] writes [site_id], ['PSI_' + str(i)] into row [i]
    of the first frame and ['M6A_' + str(i)] into row [i] of the second;
    every other field of every row, the number and the order of the rows
    stay as they were, and no method called after the constructor writes to
    the frames.  [RealDataAnalyzer.colocalization_analysis] likewise writes
    [chrom_std] and [center] into its two frames and nothing else. *)
Theorem frames_only_gain_columns (A B : DataFrame) (w : Z) :
  (∃ ps counts an,
     run_analysis A B w = Returned (ps, counts, an)
     ∧ psi_df an = psi_df (init A B w) ∧ m6a_df an = m6a_df (init A B w)
     ∧ length (psi_df an) = length A ∧ length (m6a_df an) = length B
     ∧ (∀ i, psi_df an !! i = set_site_id ("PSI_" +:+ pretty i) <$> A !! i)
     ∧ (∀ i, m6a_df an !! i = set_site_id ("M6A_" +:+ pretty i) <$> B !! i))
  ∧ (∀ s r, chrom (set_site_id s r) = chrom r
            ∧ start (set_site_id s r) = start r
            ∧ end_ (set_site_id s r) = end_ r
            ∧ name (set_site_id s r) = name r
            ∧ score (set_site_id s r) = score r
            ∧ strand (set_site_id s r) = strand r
            ∧ feature (set_site_id s r) = feature r
            ∧ site_id (set_site_id s r) = Some s)
  ∧ (∀ self : RealData.RealDataAnalyzer,
       Forall (fun r => is_Some (RealData.peak_pos r)) (RealData.m6a_df self) →
       ∃ counts pairs an,
         RealData.colocalization_analysis self w = Returned (counts, pairs, an)
         ∧ RealData.psi_df an = rd_psi_after <$> RealData.psi_df self
         ∧ RealData.m6a_df an = rd_m6a_after <$> RealData.m6a_df self)
  ∧ (∀ r, RealData.chrom (rd_psi_after r) = RealData.chrom r
          ∧ RealData.start (rd_psi_after r) = RealData.start r
          ∧ RealData.end_ (rd_psi_after r) = RealData.end_ r
          ∧ RealData.peak_pos (rd_psi_after r) = RealData.peak_pos r
          ∧ RealData.chrom (rd_m6a_after r) = RealData.chrom r
          ∧ RealData.start (rd_m6a_after r) = RealData.start r
          ∧ RealData.end_ (rd_m6a_after r) = RealData.end_ r
          ∧ RealData.peak_pos (rd_m6a_after r) = RealData.peak_pos r).
Proof.
  split; [|split; [|split]].
  - eexists _, _, _. split; [apply run_analysis_eq|].
    cbn [psi_df m6a_df init].
    split; [reflexivity|]. split; [reflexivity|].
    split; [apply assign_length|]. split; [apply assign_length|].
    split; intros i; apply assign_lookup.
  - intros s r. repeat split.
  - intros self Hpk.
    destruct (rd_colocalization_analysis_spec self w Hpk)
      as (pairs & an & Hrun & _ & Hp & Hm).
    eauto 10.
  - intros r. repeat split.
Qed.

(** C6, as stated, fails: after a run the first input frame is no longer the
    frame that was passed in, its row has a [site_id] it did not have. *)
Lemma input_frame_is_mutated :
  ∃ ps counts an,
    run_analysis sample_psi sample_m6a 50 = Returned (ps, counts, an)
    ∧ psi_df an ≠ sample_psi
    ∧ site_id <$> sample_psi !! 0%nat = Some None
    ∧ site_id <$> psi_df an !! 0%nat = Some (Some "PSI_0").
Proof.
  eexists _, _, _. split; [vm_compute; reflexivity|].
  split; [discriminate|]. split; reflexivity.
Qed.

(** C10 (as the code has it). Every pair record of
    [ColocalizationAnalyzer.find_colocalized_sites] is consistent with its
    two member sites: its chromosome is the chromosome of both, its
    positions are the midpoints [(start + end) / 2] truncated to integers
    (the floor of the midpoint for the non-negative coordinates of genomic
    intervals), and its distance is the truncation of the absolute
    difference of the untruncated midpoints, which is at most the window.
    A pair record of [RealDataAnalyzer.colocalization_analysis] carries
    other values: as chromosome the name with ['chr'] removed, which is the
    same for both members; as positions the floor midpoint
    [(start + end) // 2] of the Ψ row and the [peak_pos] cell of the m6A
    row; as distance the absolute difference of these two integers, which
    is at most the window.  Both hold for inputs in the range in which the
    doubles and the int64 cells of the code are the exact numbers. *)
Theorem pair_record_consistent (A B : DataFrame) (w : Z)
    (self : RealData.RealDataAnalyzer) (w' : Z)
    (Hexact : exact_inputs A B w)
    (Hint : int64_inputs (RealData.psi_df self) (RealData.m6a_df self) w')
    (Hrows : RealData.m6a_df self ≠ [])
    (Hpeak : Forall (fun r => is_Some (RealData.peak_pos r))
               (RealData.m6a_df self)) :
  (∃ ps an,
     find_colocalized_sites (init A B w) = Returned (ps, an)
     ∧ ∀ p, p ∈ ps →
         ∃ i j a b, A !! i = Some a ∧ B !! j = Some b
           ∧ psi_id p = "PSI_" +:+ pretty i ∧ m6a_id p = "M6A_" +:+ pretty j
           ∧ pair_chrom p = chrom a ∧ pair_chrom p = chrom b
           ∧ psi_pos p = Z.quot (start a + end_ a) 2
           ∧ m6a_pos p = Z.quot (start b + end_ b) 2
           ∧ (0 <= start a + end_ a → psi_pos p = (start a + end_ a) / 2)
           ∧ (0 <= start b + end_ b → m6a_pos p = (start b + end_ b) / 2)
           ∧ distance p = py_int (Qabs (center a - center b))
           ∧ distance p = Z.abs ((start a + end_ a) - (start b + end_ b)) / 2
           ∧ 0 <= distance p <= w)
  ∧ (∃ counts pairs an,
       RealData.colocalization_analysis self w' = Returned (counts, pairs, an)
       ∧ ∀ pr, pr ∈ pairs →
           ∃ p m pk, p ∈ RealData.psi_df self ∧ m ∈ RealData.m6a_df self
             ∧ RealData.peak_pos m = Some pk
             ∧ RealData.pair_chrom pr = RealData.replace_chr (RealData.chrom p)
             ∧ RealData.pair_chrom pr = RealData.replace_chr (RealData.chrom m)
             ∧ RealData.psi_pos pr = (RealData.start p + RealData.end_ p) / 2
             ∧ RealData.m6a_pos pr = pk
             ∧ RealData.distance pr
               = Z.abs (RealData.psi_pos pr - RealData.m6a_pos pr)
             ∧ 0 <= RealData.distance pr <= w').
Proof.
  split.
  - eexists _, _. split; [apply find_colocalized_sites_init|].
    intros p (i & j & a & b & Ha & Hb & -> & Hc & Hd)%init_pairs_elem_of.
    exists i, j, a, b.
    assert (Hpa : py_int (center (set_site_id ("PSI_" +:+ pretty i) a))
                  = Z.quot (start a + end_ a) 2)
      by exact (py_int_center (set_site_id ("PSI_" +:+ pretty i) a)).
    assert (Hpb : py_int (center (set_site_id ("M6A_" +:+ pretty j) b))
                  = Z.quot (start b + end_ b) 2)
      by exact (py_int_center (set_site_id ("M6A_" +:+ pretty j) b)).
    assert (Hdist : py_int (Qabs (center a - center b))
                    = Z.abs ((start a + end_ a) - (start b + end_ b)) / 2)
      by apply py_int_center_diff.
    apply center_diff_le in Hd.
    assert (Hd0 : 0 <= Z.abs ((start a + end_ a) - (start b + end_ b)) / 2 <= w).
    { split; [apply Z.div_pos; lia | apply Z.div_le_upper_bound; lia]. }
    cbn [psi_id m6a_id pair_chrom psi_pos m6a_pos distance pair_of the_id
         site_id set_site_id row_get chrom].
    change (center_distance (set_site_id ("PSI_" +:+ pretty i) a)
              (set_site_id ("M6A_" +:+ pretty j) b))
      with (Qabs (center a - center b)).
    rewrite Hpa, Hpb, Hdist.
    repeat split; try done; try lia.
    + intros H0. apply Z.quot_div_nonneg; lia.
    + intros H0. apply Z.quot_div_nonneg; lia.
  - destruct (rd_colocalization_analysis_spec self w' Hpeak)
      as (pairs & an & Hrun & Hmem & _).
    exists (length pairs, length (RealData.psi_df self),
            length (RealData.m6a_df self)), pairs, an.
    split; [exact Hrun|].
    intros pr (p & m & c & Hp & Hm & Hc & Hv & Hd & ->)%Hmem.
    exists p, m, c.
    cbn [RealData.pair_chrom RealData.psi_pos RealData.m6a_pos
         RealData.distance].
    split; [exact Hp|]. split; [exact Hm|]. split; [exact Hv|].
    split; [reflexivity|]. split; [exact Hc|].
    split; [reflexivity|]. split; [reflexivity|]. split; [reflexivity|].
    lia.
Qed.

Lemma pair_record_consistent_witness :
  (exact_inputs sample_psi sample_m6a 50
   ∧ int64_inputs (RealData.psi_df sample_real) (RealData.m6a_df sample_real) 50
   ∧ RealData.m6a_df sample_real ≠ [])
  ∧ (∃ ps an,
       find_colocalized_sites (init sample_psi sample_m6a 50) = Returned (ps, an)
       ∧ ∀ p, p ∈ ps → 0 <= distance p <= 50)
  ∧ (∃ counts pairs an,
       RealData.colocalization_analysis sample_real 50
       = Returned (counts, pairs, an)
       ∧ ∀ pr, pr ∈ pairs → 0 <= RealData.distance pr <= 50).
Proof.
  assert (Hexact : exact_inputs sample_psi sample_m6a 50)
    by (repeat split; repeat constructor; discriminate).
  assert (Hint : int64_inputs (RealData.psi_df sample_real)
                   (RealData.m6a_df sample_real) 50)
    by (repeat split; repeat constructor; discriminate).
  assert (Hrows : RealData.m6a_df sample_real ≠ []) by discriminate.
  assert (Hpeak : Forall (fun r => is_Some (RealData.peak_pos r))
                    (RealData.m6a_df sample_real))
    by (repeat constructor; eexists; reflexivity).
  split; [auto|].
  destruct (pair_record_consistent sample_psi sample_m6a 50 sample_real 50
              Hexact Hint Hrows Hpeak)
    as ((ps & an & Hrun & Hps) & (counts & pairs & an' & Hrun' & Hpairs)).
  split.
  - exists ps, an. split; [exact Hrun|]. intros p Hp.
    destruct (Hps p Hp) as (i & j & a & b & H). apply H.
  - exists counts, pairs, an'. split; [exact Hrun'|]. intros pr Hpr.
    destruct (Hpairs pr Hpr) as (p & m & pk & H). apply H.
Defined.

(** C10, as stated, fails for the second matcher: on a Ψ site [chr1:100-101]
    and two m6A peaks the records carry the chromosome ["1"], which is not
    the chromosome ["chr1"] of the Ψ site; the second record has the
    [peak_pos] 148 as its m6A position, not the midpoint 145 of
    [140-150]; and the first has the distance [|100 - 125| = 25], not the
    truncation 24 of the midpoint difference [|100.5 - 125|]. *)
Lemma real_pair_record_differs :
  ∃ an,
    RealData.colocalization_analysis sample_real_peaks 50
    = Returned ((2%nat, 1%nat, 2%nat),
                [RealData.mkPairRow "1" 100 125 25;
                 RealData.mkPairRow "1" 100 148 48], an)
    ∧ RealData.chrom <$> RealData.psi_df sample_real_peaks = ["chr1"]
    ∧ "1" ≠ "chr1"
    ∧ RealData.m6a_df sample_real_peaks !! 1%nat
      = Some (RealData.mkRow "chr1" 140 150 (Some 148) None None)
    ∧ 148 ≠ (140 + 150) / 2
    ∧ py_int (Qabs (inject_Z (100 + 101) / 2 - inject_Z (120 + 130) / 2)) = 24
    ∧ 25 ≠ 24.
Proof.
  eexists. split; [vm_compute; reflexivity|].
  repeat split; discriminate.
Qed.

(** C7 (as the code has it). With a negative window the matcher raises
    nothing: it returns the empty pair table, and every site of both
    collections is unmatched. *)
Theorem negative_window_matches_nothing (A B : DataFrame) (w : Z) :
  w < 0 →
  ¬ fails (find_colocalized_sites (init A B w))
  ∧ (∃ an, find_colocalized_sites (init A B w) = Returned ([], an))
  ∧ ¬ fails (run_analysis A B w)
  ∧ (∃ an, run_analysis A B w
           = Returned ([], (length A, length B, 0%nat), an)).
Proof.
  intros Hw.
  assert (Hnil : pairs_of (assign_site_ids "PSI_" A)
                   (assign_site_ids "M6A_" B) w = []).
  { apply elem_of_nil_inv. intros pr Hpr.
    apply pairs_of_elem_of in Hpr as (p & m & _ & _ & _ & _ & Hd).
    apply center_diff_le in Hd. lia. }
  assert (Hrun := run_analysis_eq A B w). cbn zeta in Hrun.
  assert (Hfind := find_colocalized_sites_init A B w).
  cbn [psi_df m6a_df init] in Hfind. rewrite Hnil in Hrun, Hfind.
  assert (Hall : ∀ df : DataFrame, unmatched (id_set []) df = df).
  { intros df. unfold unmatched, id_set. induction df as [|r df IH]; [done|].
    rewrite filter_cons_True by set_solver. by rewrite IH. }
  cbn [fmap list_fmap] in Hrun. rewrite !Hall, !assign_length in Hrun.
  split; [rewrite Hfind; apply Returned_not_fails|].
  split; [eexists; exact Hfind|].
  split; [rewrite Hrun; apply Returned_not_fails|].
  eexists. exact Hrun.
Qed.

Lemma negative_window_matches_nothing_witness :
  ¬ fails (find_colocalized_sites (init sample_psi sample_m6a (-1)))
  ∧ (∃ an, find_colocalized_sites (init sample_psi sample_m6a (-1))
           = Returned ([], an))
  ∧ ¬ fails (run_analysis sample_psi sample_m6a (-1))
  ∧ (∃ an, run_analysis sample_psi sample_m6a (-1)
           = Returned ([], (length sample_psi, length sample_m6a, 0%nat), an)).
Proof. apply (negative_window_matches_nothing sample_psi sample_m6a (-1)). lia. Defined.

(** C7, as stated, fails: with window [-1] the matcher returns (the empty
    table) instead of raising. *)
Lemma negative_window_does_not_fail :
  (-1 < 0)
  ∧ ¬ fails (find_colocalized_sites (init sample_psi sample_m6a (-1)))
  ∧ ∃ an, find_colocalized_sites (init sample_psi sample_m6a (-1))
          = Returned ([], an).
Proof.
  split; [lia|]. split.
  - intros [e He]. vm_compute in He. discriminate.
  - eexists. vm_compute. reflexivity.
Qed.

Lemma matcher_monotone_witness :
  ∃ ps1 an1 ps2 an2,
    find_colocalized_sites (init sample_psi sample_m6a 30) = Returned (ps1, an1)
    ∧ find_colocalized_sites (init sample_psi sample_m6a 50) = Returned (ps2, an2)
    ∧ ps1 ⊆ ps2.
Proof. apply (matcher_monotone sample_psi sample_m6a 30 50). lia. Defined.
(** ** Random draws and true division *)

Lemma randint_nonempty (low high u : Z) :
  low < high →
  randint low high u = Returned (low + u mod (high - low))
  ∧ low <= low + u mod (high - low) < high.
Proof.
  intros H. unfold randint.
  destruct (Z.ltb_spec low high) as [_|?]; [|lia].
  split; [reflexivity|].
  pose proof (Z.mod_pos_bound u (high - low)). lia.
Qed.

Lemma randint_empty (low high u : Z) :
  high <= low → randint low high u = Raised ValueError.
Proof.
  intros H. unfold randint.
  destruct (Z.ltb_spec low high) as [?|_]; [lia|reflexivity].
Qed.

Lemma randint_Returned (low high u p : Z) :
  randint low high u = Returned p → low <= p < high.
Proof.
  destruct (Z_lt_le_dec low high) as [H|H].
  - destruct (randint_nonempty low high u H) as [-> Hb]. intros [= <-]. exact Hb.
  - rewrite randint_empty by exact H. discriminate.
Qed.

Lemma truediv_nonzero (a b : Z) :
  b ≠ 0 → truediv a b = Returned (inject_Z a / inject_Z b)%Q.
Proof.
  intros Hb. unfold truediv.
  destruct (Z.eqb_spec b 0) as [?|_]; [contradiction|reflexivity].
Qed.

Lemma unit_fraction (a L : Z) :
  0 <= a < L → (0 <= inject_Z a / inject_Z L <= 1)%Q.
Proof.
  intros [Ha HL].
  assert (HLq : (0 < inject_Z L)%Q) by (change 0%Q with (inject_Z 0); rewrite <- Zlt_Qlt; lia).
  split.
  - apply Qle_shift_div_l; [exact HLq|]. rewrite Qmult_0_l.
    change 0%Q with (inject_Z 0). rewrite <- Zle_Qle. exact Ha.
  - apply Qle_shift_div_r; [exact HLq|]. rewrite Qmult_1_l.
    rewrite <- Zle_Qle. lia.
Qed.

(** ** Gene structure *)

Lemma fifths_bounds (L : Z) :
  0 <= L →
  0 <= L / 5 ∧ 0 <= 3 * L / 5 ∧ L / 5 + 3 * L / 5 <= L
  ∧ (L / 5 = 0 ↔ L < 5) ∧ (3 * L / 5 = 0 ↔ L < 2)
  ∧ (0 < L → L / 5 + 3 * L / 5 < L).
Proof.
  intros HL.
  pose proof (Z.div_mod L 5 ltac:(lia)) as H1.
  pose proof (Z.mod_pos_bound L 5 ltac:(lia)) as H2.
  pose proof (Z.div_mod (3 * L) 5 ltac:(lia)) as H3.
  pose proof (Z.mod_pos_bound (3 * L) 5 ltac:(lia)) as H4.
  repeat split; lia.
Qed.

Lemma gene_lengths (g : Gene) :
  0 <= gene_length g →
  utr5_length g = gene_length g / 5
  ∧ cds_length g = 3 * gene_length g / 5
  ∧ utr5_end g = gene_start g + gene_length g / 5
  ∧ cds_end g = gene_start g + gene_length g / 5 + 3 * gene_length g / 5.
Proof.
  intros HL.
  assert (H5 : utr5_length g = gene_length g / 5)
    by (apply py_int_fifth; exact HL).
  assert (Hc : cds_length g = 3 * gene_length g / 5)
    by (apply py_int_three_fifths; exact HL).
  assert (He : utr5_end g = gene_start g + gene_length g / 5).
  { unfold utr5_end, utr3_length. rewrite H5, Hc. unfold gene_length.
    destruct (is_plus g); lia. }
  unfold cds_end. rewrite He, Hc. auto.
Qed.

(** The sub-interval of each region, with [u5 = floor(0.2 L)] and
    [c = floor(0.6 L)]: the cut points are the same on both strands, the
    5' and 3' labels are exchanged. *)
Lemma region_range_eq (g : Gene) (region : Region) :
  0 <= gene_length g →
  let u5 := gene_length g / 5 in
  let c := 3 * gene_length g / 5 in
  region_range g region
  = match region with
    | utr5 => if is_plus g then (gene_start g, gene_start g + u5)
              else (gene_start g + u5 + c, gene_end g)
    | cds => (gene_start g + u5, gene_start g + u5 + c)
    | utr3 => if is_plus g then (gene_start g + u5 + c, gene_end g)
              else (gene_start g, gene_start g + u5)
    end.
Proof.
  intros HL u5 c.
  destruct (gene_lengths g HL) as (H5 & Hc & He & Hce).
  destruct (fifths_bounds _ HL) as (? & ? & ? & _).
  unfold region_range. rewrite He, Hce, Hc. fold u5 c.
  destruct region; try reflexivity.
  f_equal. lia.
Qed.
Lemma region_range_bounds (g : Gene) (region : Region) :
  0 <= gene_length g →
  gene_start g <= fst (region_range g region)
  ∧ fst (region_range g region) <= snd (region_range g region)
  ∧ snd (region_range g region) <= gene_end g.
Proof.
  intros HL. rewrite (region_range_eq g region HL).
  destruct (fifths_bounds _ HL) as (? & ? & ? & _).
  unfold gene_length in *.
  destruct region, (is_plus g); simpl; lia.
Qed.

(** ** One generated site *)

Lemma site_in_gene_nonempty (mod_type : string) (i : nat) (g : Gene)
    (region : Region) (pos_u score_u : Z) :
  0 < gene_length g →
  fst (region_range g region) < snd (region_range g region) →
  ∃ s, site_in_gene mod_type i g region pos_u score_u = Returned s
       ∧ in_range (a_start s) (region_range g region)
       ∧ a_end s = a_start s + 1
       ∧ a_feature s = region_feature region
       ∧ a_strand s = gene_strand g
       ∧ relative_pos s
         = (inject_Z (a_start s - gene_start g) / inject_Z (gene_length g))%Q.
Proof.
  intros HL Hne. unfold site_in_gene.
  destruct (region_range g region) as [low high]. simpl in Hne.
  destruct (randint_nonempty low high pos_u Hne) as [-> Hpos].
  cbn [mbind outcome_bind].
  rewrite truediv_nonzero by lia. cbn [mbind outcome_bind].
  destruct (randint_nonempty 150 1000 score_u ltac:(lia)) as [-> _].
  cbn [mbind outcome_bind].
  eexists. split; [reflexivity|]. cbn. auto.
Qed.

Lemma site_in_gene_empty (mod_type : string) (i : nat) (g : Gene)
    (region : Region) (pos_u score_u : Z) :
  snd (region_range g region) <= fst (region_range g region) →
  site_in_gene mod_type i g region pos_u score_u = Raised ValueError.
Proof.
  intros He. unfold site_in_gene.
  destruct (region_range g region) as [low high]. simpl in He.
  rewrite (randint_empty low high pos_u He). reflexivity.
Qed.

Lemma site_in_gene_Returned (mod_type : string) (i : nat) (g : Gene)
    (region : Region) (pos_u score_u : Z) (s : AnnotatedSite) :
  0 < gene_length g →
  site_in_gene mod_type i g region pos_u score_u = Returned s →
  in_range (a_start s) (region_range g region)
  ∧ a_feature s = region_feature region
  ∧ relative_pos s
    = (inject_Z (a_start s - gene_start g) / inject_Z (gene_length g))%Q.
Proof.
  intros HL Hs.
  destruct (Z_lt_le_dec (fst (region_range g region))
              (snd (region_range g region))) as [Hne|He].
  - destruct (site_in_gene_nonempty mod_type i g region pos_u score_u HL Hne)
      as (s' & Hs' & Hr & _ & Hf & _ & Hq).
    rewrite Hs in Hs'. injection Hs' as <-. auto.
  - rewrite site_in_gene_empty in Hs by exact He. discriminate.
Qed.

(** C2 (as the code has it). For every gene of positive length at most
    [2^50] (where [int(L * 0.2)] and [int(L * 0.6)] are the floors) on the '-'
    strand, with [u5 = floor(0.2 L)], [c = floor(0.6 L)] and
    [r = L - u5 - c], the sites labelled 5'UTR come from [[end - r, end)],
    those labelled CDS from [[end - r - c, end - r)] and those labelled
    3'UTR from [[start, end - r - c)]: the cut points are those of the '+'
    strand with the 5' and 3' labels exchanged, the 5' region lying at the
    genomic end.  These are the intervals [[end - u5, end)],
    [[end - u5 - c, end - u5)], [[start, end - u5 - c)] exactly when
    [r = u5]. *)
Theorem minus_strand_regions (g : Gene) :
  0 < gene_length g → gene_strand g = "-" → gene_length g <= 2 ^ 50 →
  let L := gene_end g - gene_start g in
  let u5 := L / 5 in
  let c := 3 * L / 5 in
  let r := L - u5 - c in
  utr5_length g = u5 ∧ cds_length g = c ∧ utr3_length g = r
  ∧ region_range g utr5 = (gene_end g - r, gene_end g)
  ∧ region_range g cds = (gene_end g - r - c, gene_end g - r)
  ∧ region_range g utr3 = (gene_start g, gene_end g - r - c)
  ∧ region_range g utr5 = region_range (with_strand "+" g) utr3
  ∧ region_range g cds = region_range (with_strand "+" g) cds
  ∧ region_range g utr3 = region_range (with_strand "+" g) utr5
  ∧ (region_range g utr5 = (gene_end g - u5, gene_end g)
     ∧ region_range g cds = (gene_end g - u5 - c, gene_end g - u5)
     ∧ region_range g utr3 = (gene_start g, gene_end g - u5 - c)
     ↔ r = u5).
Proof.
  intros HL Hs Hmax L u5 c r.
  assert (HL0 : 0 <= gene_length g) by lia.
  destruct (gene_lengths g HL0) as (H5 & Hc & _ & _).
  assert (Hminus : is_plus g = false).
  { unfold is_plus. rewrite Hs. reflexivity. }
  assert (HL0' : 0 <= gene_length (with_strand "+" g)) by exact HL0.
  pose proof (region_range_eq g utr5 HL0) as R5.
  pose proof (region_range_eq g cds HL0) as Rc.
  pose proof (region_range_eq g utr3 HL0) as R3.
  pose proof (region_range_eq (with_strand "+" g) utr5 HL0') as P5.
  pose proof (region_range_eq (with_strand "+" g) cds HL0') as Pc.
  pose proof (region_range_eq (with_strand "+" g) utr3 HL0') as P3.
  cbn zeta in *. rewrite Hminus in R5, R3.
  change (is_plus (with_strand "+" g)) with true in P5, P3.
  change (gene_length (with_strand "+" g)) with (gene_length g) in *.
  change (gene_start (with_strand "+" g)) with (gene_start g) in *.
  change (gene_end (with_strand "+" g)) with (gene_end g) in *.
  rewrite R5, Rc, R3, P5, Pc, P3.
  unfold utr3_length. rewrite H5, Hc.
  unfold gene_length in *. fold L. fold u5. fold c. fold r.
  repeat split; try (f_equal; lia).
  intros (E5 & _ & _). injection E5 as E5. lia.
Qed.

Lemma minus_strand_regions_witness :
  let g := mkGene "chr1" 14363 29806 "WASH7P" "-" in
  (0 < gene_length g ∧ gene_strand g = "-" ∧ gene_length g <= 2 ^ 50)
  ∧ region_range g utr5 = (gene_end g - 3090, gene_end g)
  ∧ region_range g utr5 = region_range (with_strand "+" g) utr3.
Proof.
  intros g.
  assert (HL : 0 < gene_length g) by reflexivity.
  assert (Hs : gene_strand g = "-") by reflexivity.
  assert (Hmax : gene_length g <= 2 ^ 50) by discriminate.
  split; [split; [exact HL | split; [exact Hs | exact Hmax]]|].
  destruct (minus_strand_regions g HL Hs Hmax)
    as (_ & _ & _ & H5 & _ & _ & Hp & _).
  split; [exact H5 | exact Hp].
Defined.

(** C2, as stated, fails on a gene of [REAL_GENES]: WASH7P is on the '-'
    strand, [floor(0.2 L) = 3088], and its 5'UTR sites are drawn from
    [[end - 3090, end)], not from [[end - 3088, end)]. *)
Lemma minus_strand_not_mirror :
  ∃ g, REAL_GENES !! 1%nat = Some g
       ∧ gene_strand g = "-" ∧ 0 < gene_length g
       ∧ utr5_length g = 3088
       ∧ region_range g utr5 = (gene_end g - 3090, gene_end g)
       ∧ region_range g utr5 ≠ (gene_end g - utr5_length g, gene_end g).
Proof.
  eexists. split; [reflexivity|].
  split; [reflexivity|]. split; [reflexivity|].
  split; [reflexivity|]. split; [reflexivity|].
  vm_compute. discriminate.
Qed.

(** C4. For every gene of positive length, whatever its strand, the three
    region sub-intervals are well-formed half-open intervals, pairwise
    disjoint, and their union is [[start, end)].  The same holds for the
    gene table of [generate_mock_psi]. *)
Theorem regions_partition_gene (g : Gene) :
  0 < gene_length g →
  (∀ region, fst (region_range g region) <= snd (region_range g region))
  ∧ (∀ p, gene_start g <= p < gene_end g
          ↔ in_range p (region_range g utr5)
            ∨ in_range p (region_range g cds)
            ∨ in_range p (region_range g utr3))
  ∧ (∀ p, ¬ (in_range p (region_range g utr5)
             ∧ in_range p (region_range g cds))
          ∧ ¬ (in_range p (region_range g utr5)
               ∧ in_range p (region_range g utr3))
          ∧ ¬ (in_range p (region_range g cds)
               ∧ in_range p (region_range g utr3)))
  ∧ (∀ c,
       let m := mock_gene c (gene_start g) (gene_length g) in
       (∀ p, mg_gene_start m <= p < mg_gene_end m
             ↔ in_range p (mock_region_range m utr5)
               ∨ in_range p (mock_region_range m cds)
               ∨ in_range p (mock_region_range m utr3))
       ∧ (∀ p, ¬ (in_range p (mock_region_range m utr5)
                  ∧ in_range p (mock_region_range m cds))
               ∧ ¬ (in_range p (mock_region_range m utr5)
                    ∧ in_range p (mock_region_range m utr3))
               ∧ ¬ (in_range p (mock_region_range m cds)
                    ∧ in_range p (mock_region_range m utr3)))).
Proof.
  intros HL.
  assert (HL0 : 0 <= gene_length g) by lia.
  destruct (fifths_bounds _ HL0) as (Hu & Hc & Hsum & _).
  pose proof (region_range_eq g utr5 HL0) as R5.
  pose proof (region_range_eq g cds HL0) as Rc.
  pose proof (region_range_eq g utr3 HL0) as R3.
  cbn zeta in R5, Rc, R3.
  split; [intros region; apply (region_range_bounds g region HL0)|].
  unfold in_range. rewrite R5, Rc, R3.
  split; [|split].
  - intros p. unfold gene_length in *. destruct (is_plus g); simpl; lia.
  - intros p. unfold gene_length in *. destruct (is_plus g); simpl; lia.
  - intros c. cbn zeta. unfold mock_gene, mock_region_range.
    cbn [mg_gene_start mg_gene_end mg_utr5_end mg_cds_end fst snd].
    rewrite (py_int_fifth _ HL0), (py_int_three_fifths _ HL0).
    split; intros p; lia.
Qed.

Lemma regions_partition_gene_witness :
  let g := mkGene "chr1" 321089 321115 "OR4F5" "+" in
  0 < gene_length g
  ∧ (∀ p, gene_start g <= p < gene_end g
          ↔ in_range p (region_range g utr5)
            ∨ in_range p (region_range g cds)
            ∨ in_range p (region_range g utr3)).
Proof.
  intros g.
  assert (HL : 0 < gene_length g) by reflexivity.
  split; [exact HL|].
  exact (proj1 (proj2 (regions_partition_gene g HL))).
Defined.




Lemma region_range_nonempty (g : Gene) (region : Region) :
  5 <= gene_length g →
  fst (region_range g region) < snd (region_range g region).
Proof.
  intros HL.
  assert (HL0 : 0 <= gene_length g) by lia.
  rewrite (region_range_eq g region HL0).
  destruct (fifths_bounds _ HL0) as (? & ? & ? & Hz5 & Hzc & Hlt).
  unfold gene_length in *.
  destruct region, (is_plus g); simpl; lia.
Qed.

(** C8 (as the code has it). For every gene of positive length the
    relative-position division never raises, and drawing a site from a
    non-empty region sub-interval returns a site inside it with that
    region's label.  When the chosen sub-interval is empty (the 5'-length
    [floor(0.2 L)] is 0 exactly when [L < 5], the CDS length [floor(0.6 L)]
    exactly when [L < 2]) the draw raises [ValueError]; so no returned site
    ever lies in an empty sub-interval.  From length 5 on no sub-interval is
    empty. *)
Theorem empty_region_raises (g : Gene) (region : Region)
    (mod_type : string) (i : nat) (pos_u score_u : Z) :
  0 < gene_length g →
  (∀ p, ¬ fails (truediv (p - gene_start g) (gene_length g)))
  ∧ (fst (region_range g region) < snd (region_range g region) →
     ∃ s, site_in_gene mod_type i g region pos_u score_u = Returned s
          ∧ in_range (a_start s) (region_range g region)
          ∧ a_feature s = region_feature region)
  ∧ (snd (region_range g region) <= fst (region_range g region) →
     site_in_gene mod_type i g region pos_u score_u = Raised ValueError)
  ∧ (∀ s, site_in_gene mod_type i g region pos_u score_u = Returned s →
          in_range (a_start s) (region_range g region)
          ∧ fst (region_range g region) < snd (region_range g region))
  ∧ (utr5_length g = 0 ↔ gene_length g < 5)
  ∧ (cds_length g = 0 ↔ gene_length g < 2)
  ∧ (5 <= gene_length g →
     fst (region_range g region) < snd (region_range g region)).
Proof.
  intros HL.
  assert (HL0 : 0 <= gene_length g) by lia.
  destruct (gene_lengths g HL0) as (H5 & Hc & _ & _).
  destruct (fifths_bounds _ HL0) as (_ & _ & _ & Hz5 & Hzc & _).
  split; [|split; [|split; [|split; [|split; [|split]]]]];
    [| | | | | |apply region_range_nonempty].
  - intros p. rewrite truediv_nonzero by lia. apply Returned_not_fails.
  - intros Hne.
    destruct (site_in_gene_nonempty mod_type i g region pos_u score_u HL Hne)
      as (s & Hs & Hr & _ & Hf & _).
    eauto.
  - apply site_in_gene_empty.
  - intros s Hs.
    apply site_in_gene_Returned in Hs as (Hr & _); [|exact HL].
    split; [exact Hr|]. unfold in_range in Hr. lia.
  - rewrite H5. exact Hz5.
  - rewrite Hc. exact Hzc.
Qed.

Lemma empty_region_raises_witness :
  0 < gene_length tiny_gene
  ∧ (snd (region_range tiny_gene utr5) <= fst (region_range tiny_gene utr5) →
     site_in_gene "psi" 0 tiny_gene utr5 7 9 = Raised ValueError)
  ∧ (utr5_length tiny_gene = 0 ↔ gene_length tiny_gene < 5).
Proof.
  assert (HL : 0 < gene_length tiny_gene) by reflexivity.
  split; [exact HL|].
  destruct (empty_region_raises tiny_gene utr5 "psi" 0 7 9 HL)
    as (_ & _ & He & _ & H5 & _ & _).
  split; [exact He | exact H5].
Defined.

(** C8, as stated, fails: for a '+'-strand gene of length 4 the 5' region
    is empty ([floor(0.2 * 4) = 0]) and assigning a site to it raises
    [ValueError] (an empty range), whatever the generator draws. *)
Lemma tiny_gene_raises :
  0 < gene_length tiny_gene
  ∧ utr5_length tiny_gene = 0
  ∧ region_range tiny_gene utr5 = (100, 100)
  ∧ ∀ pos_u score_u,
      site_in_gene "psi" 0 tiny_gene utr5 pos_u score_u = Raised ValueError
      ∧ fails (site_in_gene "psi" 0 tiny_gene utr5 pos_u score_u).
Proof.
  split; [reflexivity|]. split; [reflexivity|]. split; [reflexivity|].
  intros pos_u score_u.
  assert (H : site_in_gene "psi" 0 tiny_gene utr5 pos_u score_u
              = Raised ValueError) by reflexivity.
  split; [exact H|]. exists ValueError. exact H.
Qed.

(** ** The generator on its own gene table *)

Lemma REAL_GENES_lengths : Forall (fun g => 5 <= gene_length g) REAL_GENES.
Proof. repeat constructor; discriminate. Qed.

Lemma elem_of_concat_replicate {A} (n : nat) (l : list A) (x : A) :
  x ∈ concat (replicate n l) → x ∈ l.
Proof.
  induction n as [|n IH]; simpl; [by intros ?%elem_of_nil|].
  rewrite elem_of_app. intros [?|?]; auto.
Qed.

(** No draw makes an iteration of [generate_realistic_bed] raise: every
    gene of [REAL_GENES] is long enough for its three regions. *)
Lemma generate_site_total (mod_type : string) (i : nat) (d : Draw) :
  ∃ s, generate_site mod_type i d = Returned s.
Proof.
  unfold generate_site.
  set (genes := concat (replicate 2000 REAL_GENES)).
  assert (Hlen : 0 < Z.of_nat (length genes)) by (vm_compute; reflexivity).
  destruct (randint_nonempty 0 _ (gene_draw d) Hlen) as [-> Hk].
  cbn [mbind outcome_bind]. unfold getitem_gene.
  destruct (genes !! Z.to_nat (0 + gene_draw d `mod` (Z.of_nat (length genes) - 0)))
    as [g|] eqn:Hg.
  - cbn [mbind outcome_bind].
    assert (HL : 5 <= gene_length g).
    { apply list_elem_of_lookup_2, elem_of_concat_replicate in Hg.
      pose proof REAL_GENES_lengths as HF. rewrite Forall_forall in HF. auto. }
    destruct (site_in_gene_nonempty mod_type i g (region_draw d) (pos_draw d)
                (score_draw d) ltac:(lia) (region_range_nonempty _ _ HL))
      as (s & Hs & _).
    eauto.
  - apply lookup_ge_None in Hg. lia.
Qed.

Lemma generate_sites_total (mod_type : string) (draws : list Draw) :
  ∃ df, generate_sites mod_type draws = Returned df
        ∧ length df = length draws.
Proof.
  unfold generate_sites.
  assert (H : ∀ l : list (nat * Draw),
            ∃ df, mapM (fun '(i, d) => generate_site mod_type i d) l = Returned df
                  ∧ length df = length l).
  { induction l as [|[i d] l (df & Hdf & Hlen)]; [exists []; done|].
    destruct (generate_site_total mod_type i d) as (s & Hs).
    exists (s :: df). cbn [mapM]. rewrite Hs. cbn [mbind outcome_bind].
    rewrite Hdf. cbn [mbind outcome_bind]. split; [reflexivity|].
    simpl. by rewrite Hlen. }
  destruct (H (imap pair draws)) as (df & Hdf & Hlen).
  exists df. split; [exact Hdf|]. by rewrite Hlen, length_imap.
Qed.

(** A call with a valid seed and at least one site returns: the frame holds
    the sites of the loop and the BED file their first six columns.  With
    no site the column selection raises, with a seed outside
    [[0, 2^32)] the seeding does. *)
Lemma generate_realistic_bed_total (draws : list Draw) (mod_type : string)
    (seed : Z) :
  (0 <= seed < 2 ^ 32 → draws ≠ [] →
   ∃ df, generate_sites mod_type draws = Returned df
         ∧ length df = length draws
         ∧ generate_realistic_bed draws mod_type seed
           = Returned {| bed_file := bed_row <$> df; annotated_csv := df;
                         returned_df := df |})
  ∧ (0 <= seed < 2 ^ 32 →
     generate_realistic_bed [] mod_type seed = Raised KeyError)
  ∧ (¬ 0 <= seed < 2 ^ 32 →
     generate_realistic_bed draws mod_type seed = Raised ValueError).
Proof.
  unfold generate_realistic_bed, np_random_seed. repeat split.
  - intros Hseed Hne.
    destruct (generate_sites_total mod_type draws) as (df & Hdf & Hlen).
    exists df. split; [exact Hdf|]. split; [exact Hlen|].
    replace ((0 <=? seed) && (seed <? 2 ^ 32)) with true
      by (symmetry; apply andb_true_intro; split;
          [apply Z.leb_le | apply Z.ltb_lt]; lia).
    cbn [mbind outcome_bind]. rewrite Hdf. cbn [mbind outcome_bind].
    destruct df as [|s df]; [|reflexivity].
    destruct draws; [contradiction | discriminate Hlen].
  - intros Hseed.
    replace ((0 <=? seed) && (seed <? 2 ^ 32)) with true
      by (symmetry; apply andb_true_intro; split;
          [apply Z.leb_le | apply Z.ltb_lt]; lia).
    reflexivity.
  - intros Hseed.
    replace ((0 <=? seed) && (seed <? 2 ^ 32)) with false; [reflexivity|].
    symmetry. apply andb_false_iff.
    destruct (Z.leb_spec 0 seed); [right; apply Z.ltb_ge; lia | by left].
Qed.

(** In [generate_mock_psi] the strand is drawn after the position and is
    only copied into the row. *)
Lemma mock_psi_site_strand_blind (n : nat) (m : MockGene) (region : Region)
    (pos_u score_u : Z) (s1 s2 : string) (site : AnnotatedSite) :
  mock_psi_site n m region pos_u score_u s1 = Returned site →
  ∃ site', mock_psi_site n m region pos_u score_u s2 = Returned site'
           ∧ a_start site' = a_start site
           ∧ a_feature site' = a_feature site
           ∧ relative_pos site' = relative_pos site
           ∧ a_strand site' = s2.
Proof.
  unfold mock_psi_site. destruct (mock_region_range m region) as [low high].
  destruct (randint low high pos_u) as [pos|e]; [|discriminate].
  cbn [mbind outcome_bind].
  destruct (truediv (pos - mg_gene_start m) (mg_gene_length m)) as [q|e];
    [|discriminate].
  cbn [mbind outcome_bind].
  destruct (randint 100 1000 score_u) as [sc|e]; [|discriminate].
  cbn [mbind outcome_bind]. intros [= <-].
  eexists. split; [reflexivity|]. cbn. auto.
Qed.

(** ** The scenarios of the specification, evaluated *)

Example scenario_classify :
  ∃ s, site_in_gene "psi" 0 (mkGene "chr1" 1000 2000 "g" "+") utr5 100 0
       = Returned s
       ∧ a_start s = 1100 ∧ a_feature s = "5UTR"
       ∧ (relative_pos s == 0.1)%Q.
Proof. eexists. split; [reflexivity|]. repeat split. Qed.

Example scenario_match :
  ∃ ps an,
    run_analysis [site_at "chr1" 1500 "a0"]
      [site_at "chr1" 1530 "b0"; site_at "chr1" 1600 "b1"] 50
    = Returned (ps, (0%nat, 1%nat, 1%nat), an)
    ∧ map psi_id ps = ["PSI_0"] ∧ map m6a_id ps = ["M6A_0"]
    ∧ map distance ps = [30]
    ∧ psi_only an = Some []
    ∧ m6a_only an = Some [set_site_id "M6A_1" (site_at "chr1" 1600 "b1")].
Proof. eexists _, _. split; [vm_compute; reflexivity|]. repeat split. Qed.

Example scenario_mirror :
  in_range 105 (region_range (mkGene "chr1" 100 200 "g" "+") utr5)
  ∧ in_range 195 (region_range (mkGene "chr1" 100 200 "g" "-") utr5)
  ∧ region_range (mkGene "chr1" 100 200 "g" "-") utr5 = (180, 200).
Proof. unfold in_range. vm_compute. intuition discriminate. Qed.
(** * Further properties of the code *)

(** ** ColocalizationAnalyzer: order of the method calls *)

Lemma categorize_sites_init (A B : DataFrame) (w : Z) :
  let ps := pairs_of (psi_df (init A B w)) (m6a_df (init A B w)) w in
  categorize_sites (init A B w)
  = Returned (set_only (unmatched (id_set (psi_id <$> ps)) (psi_df (init A B w)))
                       (unmatched (id_set (m6a_id <$> ps)) (m6a_df (init A B w)))
                       (set_colocalized ps (init A B w))).
Proof.
  intros ps. unfold categorize_sites, ensure_colocalized.
  cbn [colocalized_sites init]. rewrite find_colocalized_sites_init.
  cbn [mbind outcome_bind]. fold ps.
  cbn [psi_df m6a_df set_colocalized init].
  rewrite (column_site_id_pure _ (assign_has_id "PSI_" A)).
  cbn [mbind outcome_bind].
  rewrite (column_site_id_pure _ (assign_has_id "M6A_" B)).
  cbn [mbind outcome_bind].
  rewrite !not_isin_mask. reflexivity.
Qed.

(** X1. [get_venn_counts] needs the two [*_only] tables: called on a fresh
    analyzer, or after [find_colocalized_sites] alone, it raises [TypeError]
    ([len(None)]); after [categorize_sites] it returns. *)
Theorem get_venn_counts_needs_categorize (A B : DataFrame) (w : Z) :
  get_venn_counts (init A B w) = Raised TypeError
  ∧ (∃ ps an, find_colocalized_sites (init A B w) = Returned (ps, an)
              ∧ get_venn_counts an = Raised TypeError)
  ∧ (∃ an counts, categorize_sites (init A B w) = Returned an
                  ∧ get_venn_counts an = Returned (counts, an)).
Proof.
  split; [|split].
  - unfold get_venn_counts, ensure_colocalized. cbn [colocalized_sites init].
    rewrite find_colocalized_sites_init. reflexivity.
  - eexists _, _. split; [apply find_colocalized_sites_init|]. reflexivity.
  - eexists _, _. split; [apply categorize_sites_init|]. reflexivity.
Qed.

(** X2. [categorize_sites] finds the pairs itself when they are missing:
    on a fresh analyzer it gives the analyzer that [find_colocalized_sites]
    followed by [categorize_sites] gives, and categorizing that analyzer
    again changes nothing. *)
Theorem categorize_sites_lazy_idempotent (A B : DataFrame) (w : Z) :
  ∃ ps an0 an,
    find_colocalized_sites (init A B w) = Returned (ps, an0)
    ∧ categorize_sites an0 = Returned an
    ∧ categorize_sites (init A B w) = Returned an
    ∧ categorize_sites an = Returned an
    ∧ colocalized_sites an = Some ps.
Proof.
  eexists _, _, _. split; [apply find_colocalized_sites_init|].
  split; [|split; [|split]].
  - apply categorize_sites_pure; [reflexivity|apply assign_has_id..].
  - apply categorize_sites_init.
  - cbn [psi_df m6a_df init set_colocalized].
    rewrite (categorize_sites_pure _
               (pairs_of (assign_site_ids "PSI_" A) (assign_site_ids "M6A_" B) w));
      [reflexivity|reflexivity|apply assign_has_id..].
  - reflexivity.
Qed.

(** ** ColocalizationAnalyzer: which sites are unmatched *)

(** X3. For inputs within [exact_inputs], a site of the first collection
    ends up in [psi_only] exactly when the second collection has no site on
    its chromosome within the window; in particular every site of a
    chromosome that the other collection lacks is unmatched.  The same
    holds for [m6a_only]. *)
Theorem unmatched_iff_no_neighbour (A B : DataFrame) (w : Z)
    (Hexact : exact_inputs A B w) :
  ∃ ps counts an po mo,
    run_analysis A B w = Returned (ps, counts, an)
    ∧ psi_only an = Some po ∧ m6a_only an = Some mo
    ∧ (∀ i a, A !! i = Some a →
         (set_site_id ("PSI_" +:+ pretty i) a ∈ po
          ↔ ¬ ∃ b, b ∈ B ∧ chrom a = chrom b
                   ∧ (center_distance a b <= inject_Z w)%Q)
         ∧ ((∀ b, b ∈ B → chrom b ≠ chrom a) →
            set_site_id ("PSI_" +:+ pretty i) a ∈ po))
    ∧ (∀ j b, B !! j = Some b →
         (set_site_id ("M6A_" +:+ pretty j) b ∈ mo
          ↔ ¬ ∃ a, a ∈ A ∧ chrom a = chrom b
                   ∧ (center_distance a b <= inject_Z w)%Q)
         ∧ ((∀ a, a ∈ A → chrom a ≠ chrom b) →
            set_site_id ("M6A_" +:+ pretty j) b ∈ mo)).
Proof.
  eexists _, _, _, _, _. split; [apply run_analysis_eq|].
  cbn [psi_only m6a_only]. split; [reflexivity|]. split; [reflexivity|].
  assert (Hpsi : ∀ i a, A !! i = Some a →
            set_site_id ("PSI_" +:+ pretty i) a
              ∈ unmatched (id_set (psi_id <$> pairs_of (assign_site_ids "PSI_" A)
                                               (assign_site_ids "M6A_" B) w))
                  (assign_site_ids "PSI_" A)
            ↔ ¬ ∃ b, b ∈ B ∧ chrom a = chrom b
                     ∧ (center_distance a b <= inject_Z w)%Q).
  { intros i a Ha. unfold unmatched, id_set.
    rewrite list_elem_of_filter, elem_of_list_to_set, list_elem_of_fmap.
    split.
    - intros [Hn _] (b & Hb & Hc & Hd). apply Hn.
      apply list_elem_of_lookup in Hb as [j Hb].
      exists (pair_of (set_site_id ("PSI_" +:+ pretty i) a)
                      (set_site_id ("M6A_" +:+ pretty j) b)).
      split; [reflexivity|].
      apply (init_pairs_elem_of A B w). exists i, j, a, b. auto.
    - intros Hn. split.
      + intros (pr & Hid & Hpr).
        apply (init_pairs_elem_of A B w) in Hpr
          as (i' & j' & a' & b' & Ha' & Hb' & -> & Hc & Hd).
        unfold the_id in Hid. simpl in Hid.
        apply append_inj_r, (inj pretty) in Hid. subst i'.
        assert (a' = a) by congruence. subst a'.
        apply Hn. exists b'. split; [|auto].
        apply list_elem_of_lookup. eauto.
      + apply assign_elem_of. eauto. }
  assert (Hm6a : ∀ j b, B !! j = Some b →
            set_site_id ("M6A_" +:+ pretty j) b
              ∈ unmatched (id_set (m6a_id <$> pairs_of (assign_site_ids "PSI_" A)
                                               (assign_site_ids "M6A_" B) w))
                  (assign_site_ids "M6A_" B)
            ↔ ¬ ∃ a, a ∈ A ∧ chrom a = chrom b
                     ∧ (center_distance a b <= inject_Z w)%Q).
  { intros j b Hb. unfold unmatched, id_set.
    rewrite list_elem_of_filter, elem_of_list_to_set, list_elem_of_fmap.
    split.
    - intros [Hn _] (a & Ha & Hc & Hd). apply Hn.
      apply list_elem_of_lookup in Ha as [i Ha].
      exists (pair_of (set_site_id ("PSI_" +:+ pretty i) a)
                      (set_site_id ("M6A_" +:+ pretty j) b)).
      split; [reflexivity|].
      apply (init_pairs_elem_of A B w). exists i, j, a, b. auto.
    - intros Hn. split.
      + intros (pr & Hid & Hpr).
        apply (init_pairs_elem_of A B w) in Hpr
          as (i' & j' & a' & b' & Ha' & Hb' & -> & Hc & Hd).
        unfold the_id in Hid. simpl in Hid.
        apply append_inj_r, (inj pretty) in Hid. subst j'.
        assert (b' = b) by congruence. subst b'.
        apply Hn. exists a'. split; [|auto].
        apply list_elem_of_lookup. eauto.
      + apply assign_elem_of. eauto. }
  split.
  - intros i a Ha. split; [apply Hpsi; exact Ha|].
    intros Hlone. apply (Hpsi i a Ha).
    intros (b & Hb & Hc & _). exact (Hlone b Hb (eq_sym Hc)).
  - intros j b Hb. split; [apply Hm6a; exact Hb|].
    intros Hlone. apply (Hm6a j b Hb).
    intros (a & Ha & Hc & _). exact (Hlone a Ha Hc).
Qed.

Lemma unmatched_iff_no_neighbour_witness :
  exact_inputs sample_psi sample_m6a 50
  ∧ ∃ ps counts an po mo,
      run_analysis sample_psi sample_m6a 50 = Returned (ps, counts, an)
      ∧ psi_only an = Some po ∧ m6a_only an = Some mo
      ∧ set_site_id "M6A_2" (site_at "chr1" 1600 "M6A_3") ∈ mo.
Proof.
  assert (Hexact : exact_inputs sample_psi sample_m6a 50)
    by (repeat split; repeat constructor; discriminate).
  split; [exact Hexact|].
  destruct (unmatched_iff_no_neighbour sample_psi sample_m6a 50 Hexact)
    as (ps & counts & an & po & mo & Hrun & Hpo & Hmo & _ & HB).
  exists ps, counts, an, po, mo.
  split; [exact Hrun|]. split; [exact Hpo|]. split; [exact Hmo|].
  destruct (HB 2%nat (site_at "chr1" 1600 "M6A_3") eq_refl) as [Hiff _].
  apply Hiff. intros (a & Ha & _ & Hle).
  apply list_elem_of_singleton in Ha. subst a.
  vm_compute in Hle. apply Hle. reflexivity.
Defined.
(** ** ColocalizationAnalyzer: symmetry and stable order *)

Lemma nearby_mask_sym (a b : Site) (w : Z) :
  nearby_mask (chrom a) (center a) w b ↔ nearby_mask (chrom b) (center b) w a.
Proof.
  rewrite !nearby_mask_iff, !center_diff_le.
  split; intros [? ?]; split; auto; lia.
Qed.

Lemma pairs_of_length_cons_r (psi m6a : DataFrame) (m : Site) (w : Z) :
  length (pairs_of psi (m :: m6a) w)
  = (length (filter (fun p => nearby_mask (chrom p) (center p) w m) psi)
     + length (pairs_of psi m6a w))%nat.
Proof.
  unfold pairs_of, nearby. induction psi as [|p psi IH]; [reflexivity|].
  rewrite !fmap_cons. cbn [concat]. rewrite !length_app, IH, !length_fmap.
  rewrite !filter_cons.
  destruct (decide (nearby_mask (chrom p) (center p) w m)); simpl; lia.
Qed.

(** The number of pairs depends on chromosomes and centres only. *)
Lemma pairs_of_length_sym (psi m6a psi' m6a' : DataFrame) (w : Z) :
  Forall2 (fun r r' => chrom r = chrom r' ∧ center r = center r') psi psi' →
  Forall2 (fun r r' => chrom r = chrom r' ∧ center r = center r') m6a m6a' →
  length (pairs_of psi m6a w) = length (pairs_of m6a' psi' w).
Proof.
  intros Hp Hm. revert m6a m6a' Hm.
  induction Hp as [|p p' psi psi' [Hc Hctr] Hp IH]; intros m6a m6a' Hm.
  - unfold pairs_of at 1. cbn [fmap list_fmap concat length].
    clear. induction m6a' as [|m m6a' IH]; [reflexivity|].
    unfold pairs_of, nearby in *. rewrite fmap_cons. cbn [concat].
    rewrite filter_nil, fmap_nil. exact IH.
  - rewrite pairs_of_length_cons_r.
    unfold pairs_of at 1. rewrite fmap_cons. cbn [concat].
    rewrite length_app, length_fmap. fold (pairs_of psi m6a w).
    rewrite (IH m6a m6a' Hm). f_equal.
    unfold nearby. clear IH Hp. induction Hm as [|m m' m6a m6a' [Hmc Hmctr] Hm IHm];
      [reflexivity|].
    assert (Hiff : nearby_mask (chrom p) (center p) w m
                   ↔ nearby_mask (chrom m') (center m') w p').
    { rewrite nearby_mask_sym. unfold nearby_mask.
      rewrite Hc, Hctr, Hmc, Hmctr. reflexivity. }
    rewrite !filter_cons.
    destruct (decide (nearby_mask (chrom p) (center p) w m)) as [H1|H1];
      destruct (decide (nearby_mask (chrom m') (center m') w p')) as [H2|H2];
      cbn [length]; rewrite ?IHm; try reflexivity; tauto.
Qed.

Lemma assign_Forall2 (pre pre' : string) (df : DataFrame) :
  Forall2 (fun r r' => chrom r = chrom r' ∧ center r = center r')
    (assign_site_ids pre df) (assign_site_ids pre' df).
Proof.
  apply Forall2_same_length_lookup. split.
  - by rewrite !assign_length.
  - intros i r r'. rewrite !assign_lookup.
    destruct (df !! i); simpl; [|discriminate].
    intros [= <-] [= <-]. split; reflexivity.
Qed.

(** X4. For inputs within [exact_inputs], swapping the two collections
    gives the mirrored pairs: the runs on [(A, B)] and on [(B, A)] return
    equally many pairs, and [A[i]] is joined with [B[j]] in the first as
    often (0 or 1 times) as [B[j]] with [A[i]] in the second. *)
Theorem matcher_symmetric (A B : DataFrame) (w : Z)
    (Hexact : exact_inputs A B w) :
  ∃ ps an ps' an',
    find_colocalized_sites (init A B w) = Returned (ps, an)
    ∧ find_colocalized_sites (init B A w) = Returned (ps', an')
    ∧ length ps = length ps'
    ∧ ∀ i j a b, A !! i = Some a → B !! j = Some b →
        pair_count ("PSI_" +:+ pretty i) ("M6A_" +:+ pretty j) ps
        = pair_count ("PSI_" +:+ pretty j) ("M6A_" +:+ pretty i) ps'.
Proof.
  eexists _, _, _, _.
  split; [apply find_colocalized_sites_init|].
  split; [apply find_colocalized_sites_init|].
  split.
  - cbn [psi_df m6a_df init].
    apply pairs_of_length_sym; apply assign_Forall2.
  - intros i j a b Ha Hb.
    rewrite (init_pair_count A B w i j a b Ha Hb).
    rewrite (init_pair_count B A w j i b a Hb Ha).
    destruct (decide (nearby_mask (chrom a) (center a) w b)) as [H1|H1];
      destruct (decide (nearby_mask (chrom b) (center b) w a)) as [H2|H2];
      try reflexivity; apply nearby_mask_sym in H1 || apply nearby_mask_sym in H2;
      tauto.
Qed.

Lemma matcher_symmetric_witness :
  exact_inputs sample_psi sample_m6a 50
  ∧ ∃ ps an ps' an',
      find_colocalized_sites (init sample_psi sample_m6a 50) = Returned (ps, an)
      ∧ find_colocalized_sites (init sample_m6a sample_psi 50)
        = Returned (ps', an')
      ∧ length ps = length ps'.
Proof.
  assert (Hexact : exact_inputs sample_psi sample_m6a 50)
    by (repeat split; repeat constructor; discriminate).
  split; [exact Hexact|].
  destruct (matcher_symmetric sample_psi sample_m6a 50 Hexact)
    as (ps & an & ps' & an' & Hrun & Hrun' & Hlen & _).
  exists ps, an, ps', an'. auto.
Defined.

Lemma filter_sublist_impl {X} (P Q : X → Prop)
    `{∀ x, Decision (P x)} `{∀ x, Decision (Q x)} (l : list X) :
  (∀ x, P x → Q x) → filter P l `sublist_of` filter Q l.
Proof.
  intros HPQ. induction l as [|x l IH]; [constructor|].
  rewrite !filter_cons.
  destruct (decide (P x)) as [HP|HP]; destruct (decide (Q x)) as [HQ|HQ].
  - by apply sublist_skip.
  - exfalso. auto.
  - by apply sublist_cons.
  - exact IH.
Qed.

(** X5. Widening the window keeps the emitted pairs and their order: for
    [w1 <= w2] the pair table for [w1] is obtained from the table for [w2]
    by deleting rows. *)
Theorem matcher_monotone_order (A B : DataFrame) (w1 w2 : Z) :
  w1 <= w2 →
  ∃ ps1 an1 ps2 an2,
    find_colocalized_sites (init A B w1) = Returned (ps1, an1)
    ∧ find_colocalized_sites (init A B w2) = Returned (ps2, an2)
    ∧ ps1 `sublist_of` ps2.
Proof.
  intros Hw. eexists _, _, _, _.
  split; [apply find_colocalized_sites_init|].
  split; [apply find_colocalized_sites_init|].
  cbn [psi_df m6a_df init]. unfold pairs_of.
  generalize (assign_site_ids "M6A_" B). intros m6a.
  induction (assign_site_ids "PSI_" A) as [|p psi IH]; [constructor|].
  rewrite !fmap_cons. cbn [concat]. apply sublist_app; [|exact IH].
  apply fmap_sublist. unfold nearby. apply filter_sublist_impl.
  intros m. rewrite !nearby_mask_iff. intros [Hc Hd]. split; [exact Hc|].
  eapply Qle_trans; [exact Hd|]. rewrite <- Zle_Qle. exact Hw.
Qed.

Lemma matcher_monotone_order_witness :
  ∃ ps1 an1 ps2 an2,
    find_colocalized_sites (init sample_psi sample_m6a 30) = Returned (ps1, an1)
    ∧ find_colocalized_sites (init sample_psi sample_m6a 45) = Returned (ps2, an2)
    ∧ ps1 `sublist_of` ps2.
Proof. apply (matcher_monotone_order sample_psi sample_m6a 30 45). lia. Defined.

(** ** plot_venn_diagram on the counts of a run *)

Lemma fraction_le_1 (a L : Z) :
  0 <= a <= L → 0 < L → (0 <= inject_Z a / inject_Z L <= 1)%Q.
Proof.
  intros [Ha HaL] HL.
  assert (HLq : (0 < inject_Z L)%Q)
    by (change 0%Q with (inject_Z 0); rewrite <- Zlt_Qlt; lia).
  split.
  - apply Qle_shift_div_l; [exact HLq|]. rewrite Qmult_0_l.
    change 0%Q with (inject_Z 0). rewrite <- Zle_Qle. exact Ha.
  - apply Qle_shift_div_r; [exact HLq|]. rewrite Qmult_1_l.
    rewrite <- Zle_Qle. exact HaL.
Qed.

Lemma run_counts (A B : DataFrame) (w : Z) :
  ∃ ps n1 n2 n3 an,
    run_analysis A B w = Returned (ps, (n1, n2, n3), an)
    ∧ (n3 + n1 = length A)%nat
    ∧ (size (id_set (m6a_id <$> ps)) + n2 = length B)%nat
    ∧ n3 = size (id_set (psi_id <$> ps))
    ∧ (A = [] → ps = []).
Proof.
  eexists _, _, _, _, _. split; [apply run_analysis_eq|].
  split; [|split; [|split; [reflexivity|]]].
  - rewrite <- (assign_length "PSI_" A). apply size_matched.
    + apply assign_NoDup.
    + intros x Hx. unfold id_set in Hx.
      apply elem_of_list_to_set, list_elem_of_fmap in Hx as (pr & -> & Hpr).
      apply pairs_of_elem_of in Hpr as (p & m & Hp & _ & -> & _).
      exists p. split; [done|reflexivity].
  - rewrite <- (assign_length "M6A_" B). apply size_matched.
    + apply assign_NoDup.
    + intros x Hx. unfold id_set in Hx.
      apply elem_of_list_to_set, list_elem_of_fmap in Hx as (pr & -> & Hpr).
      apply pairs_of_elem_of in Hpr as (p & m & _ & Hm & -> & _).
      exists m. split; [done|reflexivity].
  - intros ->. reflexivity.
Qed.

(** X6. In the title drawn from the counts of a run, [total_psi] is the
    size of the first collection, while [total_m6a] is the size of the
    second collection minus the number of its matched sites plus the number
    of matched sites of the first: the overlap counts Ψ sites on both
    sides. *)
Theorem venn_title_totals (A B : DataFrame) (w : Z) :
  ∃ ps n1 n2 n3 an,
    run_analysis A B w = Returned (ps, (n1, n2, n3), an)
    ∧ Z.of_nat n1 + Z.of_nat n3 = Z.of_nat (length A)
    ∧ Z.of_nat n2 + Z.of_nat n3
      = Z.of_nat (length B) - Z.of_nat (size (id_set (m6a_id <$> ps)))
        + Z.of_nat (size (id_set (psi_id <$> ps)))
    ∧ (∀ t, plot_venn_diagram_title (Z.of_nat n1) (Z.of_nat n2) (Z.of_nat n3)
            = Returned t →
            t.1.1 = Z.of_nat (length A)
            ∧ t.1.2 = Z.of_nat (length B)
                      - Z.of_nat (size (id_set (m6a_id <$> ps)))
                      + Z.of_nat (size (id_set (psi_id <$> ps)))).
Proof.
  destruct (run_counts A B w) as (ps & n1 & n2 & n3 & an & Hrun & H1 & H2 & H3 & _).
  exists ps, n1, n2, n3, an. split; [exact Hrun|].
  assert (E1 : Z.of_nat n1 + Z.of_nat n3 = Z.of_nat (length A)) by lia.
  assert (E2 : Z.of_nat n2 + Z.of_nat n3
               = Z.of_nat (length B) - Z.of_nat (size (id_set (m6a_id <$> ps)))
                 + Z.of_nat (size (id_set (psi_id <$> ps)))) by lia.
  split; [exact E1|]. split; [exact E2|].
  intros t Ht. unfold plot_venn_diagram_title in Ht.
  apply bind_Returned in Ht as (ratio & _ & Ht). injection Ht as <-.
  cbn [fst snd]. auto.
Qed.

(** X7. The percentage of the title is computable unless both collections
    are empty: on the counts of a run it raises [ZeroDivisionError] exactly
    when the two collections have no site, and otherwise lies between 0 and
    100. *)
Theorem venn_title_percentage (A B : DataFrame) (w : Z) :
  ∃ ps n1 n2 n3 an,
    run_analysis A B w = Returned (ps, (n1, n2, n3), an)
    ∧ (A = [] ∧ B = [] →
       plot_venn_diagram_title (Z.of_nat n1) (Z.of_nat n2) (Z.of_nat n3)
       = Raised ZeroDivisionError)
    ∧ (¬ (A = [] ∧ B = []) →
       ∃ t, plot_venn_diagram_title (Z.of_nat n1) (Z.of_nat n2) (Z.of_nat n3)
            = Returned t
            ∧ (0 <= t.2 <= 100)%Q).
Proof.
  destruct (run_counts A B w)
    as (ps & n1 & n2 & n3 & an & Hrun & H1 & H2 & H3 & Hnil).
  exists ps, n1, n2, n3, an. split; [exact Hrun|].
  unfold plot_venn_diagram_title.
  set (M := Z.max (Z.of_nat n1 + Z.of_nat n3) (Z.of_nat n2 + Z.of_nat n3)).
  split.
  - intros [-> ->]. specialize (Hnil eq_refl). subst ps.
    assert (n3 = 0%nat) by (subst n3; reflexivity).
    assert (M = 0) by (unfold M; simpl in *; lia).
    unfold truediv. replace M with 0 by done. reflexivity.
  - intros Hne.
    assert (HM : 0 < M).
    { unfold M. destruct A as [|a A].
      - destruct B as [|b B]; [tauto|].
        specialize (Hnil eq_refl). subst ps.
        assert (size (id_set (m6a_id <$> [])) = 0%nat) by reflexivity.
        simpl in *. lia.
      - simpl in *. lia. }
    rewrite truediv_nonzero by lia. cbn [mbind outcome_bind].
    eexists. split; [reflexivity|]. cbn [snd].
    destruct (fraction_le_1 (Z.of_nat n3) M) as [Hlo Hhi]; [unfold M; lia|exact HM|].
    split.
    + apply Qmult_le_0_compat; [exact Hlo|discriminate].
    + apply (Qle_trans _ (1 * 100)%Q); [|discriminate].
      apply Qmult_le_compat_r; [exact Hhi|discriminate].
Qed.

(** ** RealDataAnalyzer.colocalization_analysis *)

(** X8. When the m6A frame has rows and its [peak_pos] column, and the
    cells and the window are within [int64_inputs], the second matcher
    returns, its first count is the number of rows of the pair table, and
    the table holds exactly the combinations of a Ψ row and an m6A row with
    the same chromosome name after removal of ['chr'] whose [peak_pos] is
    within the window of the Ψ row's integer midpoint; each row records that
    midpoint, the [peak_pos] and their absolute difference, which is at most
    the window. *)
Theorem real_matcher_all_pairs (self : RealData.RealDataAnalyzer) (w : Z)
    (Hrows : RealData.m6a_df self ≠ [])
    (Hint : int64_inputs (RealData.psi_df self) (RealData.m6a_df self) w) :
  Forall (fun r => is_Some (RealData.peak_pos r)) (RealData.m6a_df self) →
  ∃ pairs an,
    RealData.colocalization_analysis self w
    = Returned ((length pairs, length (RealData.psi_df self),
                 length (RealData.m6a_df self)), pairs, an)
    ∧ (∀ p m c, p ∈ RealData.psi_df self → m ∈ RealData.m6a_df self →
         RealData.replace_chr (RealData.chrom p)
         = RealData.replace_chr (RealData.chrom m) →
         RealData.peak_pos m = Some c →
         Z.abs (c - (RealData.start p + RealData.end_ p) / 2) <= w →
         RealData.mkPairRow (RealData.replace_chr (RealData.chrom p))
           ((RealData.start p + RealData.end_ p) / 2) c
           (Z.abs ((RealData.start p + RealData.end_ p) / 2 - c)) ∈ pairs)
    ∧ (∀ pr, pr ∈ pairs →
         (∃ p m, p ∈ RealData.psi_df self ∧ m ∈ RealData.m6a_df self
            ∧ RealData.replace_chr (RealData.chrom p)
              = RealData.replace_chr (RealData.chrom m)
            ∧ RealData.pair_chrom pr = RealData.replace_chr (RealData.chrom p)
            ∧ RealData.psi_pos pr = (RealData.start p + RealData.end_ p) / 2
            ∧ RealData.peak_pos m = Some (RealData.m6a_pos pr))
         ∧ RealData.distance pr
           = Z.abs (RealData.psi_pos pr - RealData.m6a_pos pr)
         ∧ 0 <= RealData.distance pr <= w).
Proof.
  intros Hpk.
  destruct (rd_colocalization_analysis_spec self w Hpk)
    as (pairs & an & Hrun & Hmem & _).
  exists pairs, an. split; [exact Hrun|]. split.
  - intros p m c Hp Hm Hc Hv Hd. apply Hmem. exists p, m, c. auto 10.
  - intros pr (p & m & c & Hp & Hm & Hc & Hv & Hd & ->)%Hmem.
    cbn [RealData.pair_chrom RealData.psi_pos RealData.m6a_pos RealData.distance].
    split; [exists p, m; auto 10|]. split; [reflexivity|]. lia.
Qed.

Lemma real_matcher_all_pairs_witness :
  (RealData.m6a_df sample_real ≠ []
   ∧ int64_inputs (RealData.psi_df sample_real) (RealData.m6a_df sample_real) 50
   ∧ Forall (fun r => is_Some (RealData.peak_pos r))
       (RealData.m6a_df sample_real))
  ∧ ∃ pairs an,
      RealData.colocalization_analysis sample_real 50
      = Returned ((length pairs, 2%nat, 2%nat), pairs, an)
      ∧ ∀ pr, pr ∈ pairs →
          RealData.distance pr
          = Z.abs (RealData.psi_pos pr - RealData.m6a_pos pr)
          ∧ 0 <= RealData.distance pr <= 50.
Proof.
  assert (Hpk : Forall (fun r => is_Some (RealData.peak_pos r))
                  (RealData.m6a_df sample_real))
    by (repeat constructor; eexists; reflexivity).
  assert (Hrows : RealData.m6a_df sample_real ≠ []) by discriminate.
  assert (Hint : int64_inputs (RealData.psi_df sample_real)
                   (RealData.m6a_df sample_real) 50)
    by (repeat split; repeat constructor; discriminate).
  split; [auto|].
  destruct (real_matcher_all_pairs sample_real 50 Hrows Hint Hpk)
    as (pairs & an & Hrun & _ & Hd).
  exists pairs, an. split; [exact Hrun|].
  intros pr Hpr. exact (proj2 (Hd pr Hpr)).
Defined.

(** X9. On an m6A frame that has rows but no [peak_pos] column the second
    matcher raises [KeyError], whatever the Ψ frame and the window. *)
Theorem real_matcher_needs_peak_pos (self : RealData.RealDataAnalyzer) (w : Z) :
  RealData.m6a_df self ≠ [] →
  Forall (fun r => RealData.peak_pos r = None) (RealData.m6a_df self) →
  RealData.colocalization_analysis self w = Raised KeyError.
Proof.
  intros Hne Hnone. unfold RealData.colocalization_analysis.
  destruct (RealData.m6a_df self) as [|r rest]; [contradiction|].
  apply Forall_cons in Hnone as [Hr _].
  assert (Hget : ∀ v, RealData.getitem RealData.peak_pos
                        (RealData.set_chrom_std v r) = Raised KeyError).
  { intros v. unfold RealData.getitem. simpl. rewrite Hr. reflexivity. }
  rewrite fmap_cons. cbn [mapM]. rewrite Hget. reflexivity.
Qed.

Lemma real_matcher_needs_peak_pos_witness :
  RealData.colocalization_analysis
    {| RealData.psi_df := [RealData.mkRow "chr1" 100 101 None None None];
       RealData.m6a_df := [RealData.mkRow "chr1" 120 131 None None None] |} 50
  = Raised KeyError.
Proof.
  apply real_matcher_needs_peak_pos; [discriminate|].
  repeat constructor.
Defined.

Lemma prepare_for_analysis_peak (df : list RealData.Row) :
  Forall (fun r => is_Some (RealData.peak_pos r)) (prepare_for_analysis df).
Proof.
  unfold prepare_for_analysis. apply Forall_fmap, Forall_forall.
  intros r _. simpl. eauto.
Qed.

(** X10. [prepare_for_analysis] supplies what the second matcher needs: on
    any Ψ frame and any prepared m6A frame, with cells and window within
    [int64_inputs], the matcher returns, and it pairs
    a Ψ row with an m6A row exactly when their chromosome names agree after
    removal of ['chr'] and their integer midpoints [(start + end) // 2] are
    at most the window apart. *)
Theorem prepared_frames_match_on_midpoints
    (psi m6a : list RealData.Row) (w : Z) (Hint : int64_inputs psi m6a w) :
  ∃ pairs an,
    RealData.colocalization_analysis
      {| RealData.psi_df := psi; RealData.m6a_df := prepare_for_analysis m6a |} w
    = Returned ((length pairs, length psi, length m6a), pairs, an)
    ∧ ∀ pr, pr ∈ pairs ↔
        ∃ p m, p ∈ psi ∧ m ∈ m6a
          ∧ RealData.replace_chr (RealData.chrom p)
            = RealData.replace_chr (RealData.chrom m)
          ∧ Z.abs ((RealData.start m + RealData.end_ m) / 2
                   - (RealData.start p + RealData.end_ p) / 2) <= w
          ∧ pr = RealData.mkPairRow
                   (RealData.replace_chr (RealData.chrom p))
                   ((RealData.start p + RealData.end_ p) / 2)
                   ((RealData.start m + RealData.end_ m) / 2)
                   (Z.abs ((RealData.start p + RealData.end_ p) / 2
                           - (RealData.start m + RealData.end_ m) / 2)).
Proof.
  destruct (rd_colocalization_analysis_spec
              {| RealData.psi_df := psi;
                 RealData.m6a_df := prepare_for_analysis m6a |} w
              (prepare_for_analysis_peak m6a))
    as (pairs & an & Hrun & Hmem & _).
  cbn [RealData.psi_df RealData.m6a_df] in Hrun, Hmem.
  exists pairs, an. split.
  - rewrite Hrun. unfold prepare_for_analysis. rewrite length_fmap. reflexivity.
  - intros pr. rewrite Hmem. split.
    + intros (p & m' & c & Hp & Hm' & Hc & Hv & Hd & ->).
      apply list_elem_of_fmap in Hm' as (m & -> & Hm).
      simpl in Hc, Hv. injection Hv as <-.
      exists p, m. auto 10.
    + intros (p & m & Hp & Hm & Hc & Hd & ->).
      exists p, (set_peak_pos ((RealData.start m + RealData.end_ m) / 2) m),
        ((RealData.start m + RealData.end_ m) / 2).
      split; [exact Hp|].
      split; [apply list_elem_of_fmap; exists m; split; [reflexivity|exact Hm]|].
      auto 10.
Qed.

Lemma prepared_frames_match_on_midpoints_witness :
  int64_inputs (RealData.psi_df sample_real) (RealData.m6a_df sample_real) 50
  ∧ ∃ pairs an,
      RealData.colocalization_analysis
        {| RealData.psi_df := RealData.psi_df sample_real;
           RealData.m6a_df :=
             prepare_for_analysis (RealData.m6a_df sample_real) |} 50
      = Returned ((length pairs, 2%nat, 2%nat), pairs, an)
      ∧ RealData.mkPairRow "1" 100 125 25 ∈ pairs.
Proof.
  assert (Hint : int64_inputs (RealData.psi_df sample_real)
                   (RealData.m6a_df sample_real) 50)
    by (repeat split; repeat constructor; discriminate).
  split; [exact Hint|].
  destruct (prepared_frames_match_on_midpoints (RealData.psi_df sample_real)
              (RealData.m6a_df sample_real) 50 Hint)
    as (pairs & an & Hrun & Hmem).
  exists pairs, an. split; [exact Hrun|].
  apply Hmem.
  exists (RealData.mkRow "chr1" 100 101 None None None),
    (RealData.mkRow "1" 120 131 (Some 125) None None).
  split; [apply list_elem_of_here|]. split; [apply list_elem_of_here|].
  split; [reflexivity|]. split; [discriminate | reflexivity].
Defined.

(** X11. The second matcher is monotone in its window as well: every row
    of the pair table for [w1] is a row of the table for [w2 >= w1]. *)
Theorem real_matcher_monotone (self : RealData.RealDataAnalyzer) (w1 w2 : Z) :
  Forall (fun r => is_Some (RealData.peak_pos r)) (RealData.m6a_df self) →
  w1 <= w2 →
  ∃ c1 ps1 an1 c2 ps2 an2,
    RealData.colocalization_analysis self w1 = Returned (c1, ps1, an1)
    ∧ RealData.colocalization_analysis self w2 = Returned (c2, ps2, an2)
    ∧ ps1 ⊆ ps2.
Proof.
  intros Hpk Hw.
  destruct (rd_colocalization_analysis_spec self w1 Hpk)
    as (ps1 & an1 & Hrun1 & Hmem1 & _).
  destruct (rd_colocalization_analysis_spec self w2 Hpk)
    as (ps2 & an2 & Hrun2 & Hmem2 & _).
  eexists _, ps1, an1, _, ps2, an2.
  split; [exact Hrun1|]. split; [exact Hrun2|].
  intros pr (p & m & c & Hp & Hm & Hc & Hv & Hd & ->)%Hmem1.
  apply Hmem2. exists p, m, c. repeat (split; [done|]).
  split; [lia|reflexivity].
Qed.

Lemma real_matcher_monotone_witness :
  ∃ c1 ps1 an1 c2 ps2 an2,
    RealData.colocalization_analysis sample_real 10 = Returned (c1, ps1, an1)
    ∧ RealData.colocalization_analysis sample_real 50 = Returned (c2, ps2, an2)
    ∧ ps1 ⊆ ps2.
Proof.
  apply (real_matcher_monotone sample_real 10 50); [|lia].
  repeat constructor; eexists; reflexivity.
Defined.

(** ** RealDataAnalyzer.plot_venn_diagram *)

(** X12. For non-negative counts the three sizes handed to [venn2] are
    non-negative, the overlap never exceeds the number of pair events, and
    each circle stays within its collection: [psi_only + overlap <= n_psi]
    with equality exactly when [min(colocalized, n_psi) <= n_m6a], and
    likewise for m6A. *)
Theorem real_venn_subsets_bounds (colocalized n_psi n_m6a : Z) :
  0 <= colocalized → 0 <= n_psi → 0 <= n_m6a →
  let '(psi_only, m6a_only, overlap) :=
    real_venn_subsets colocalized n_psi n_m6a in
  0 <= psi_only ∧ 0 <= m6a_only ∧ 0 <= overlap <= colocalized
  ∧ psi_only + overlap <= n_psi ∧ m6a_only + overlap <= n_m6a
  ∧ (psi_only + overlap = n_psi ↔ Z.min colocalized n_psi <= n_m6a)
  ∧ (m6a_only + overlap = n_m6a ↔ Z.min colocalized n_m6a <= n_psi).
Proof. intros Hc Hp Hm. unfold real_venn_subsets. lia. Qed.

Lemma real_venn_subsets_bounds_witness :
  let '(psi_only, m6a_only, overlap) := real_venn_subsets 7 5 3 in
  0 <= psi_only ∧ 0 <= m6a_only ∧ 0 <= overlap <= 7
  ∧ psi_only + overlap <= 5 ∧ m6a_only + overlap <= 3
  ∧ (psi_only + overlap = 5 ↔ Z.min 7 5 <= 3)
  ∧ (m6a_only + overlap = 3 ↔ Z.min 7 3 <= 5).
Proof. apply (real_venn_subsets_bounds 7 5 3); lia. Defined.

(** ** RealDataAnalyzer.normalize_regions and metagene_analysis *)

Lemma lower_upper_ascii (c : ascii) :
  lower_ascii (upper_ascii c) = lower_ascii c
  ∧ lower_ascii (lower_ascii c) = lower_ascii c.
Proof.
  destruct c as [[] [] [] [] [] [] [] []]; split; reflexivity.
Qed.

Lemma lower_upper (s : string) :
  lower (upper s) = lower s ∧ lower (lower s) = lower s.
Proof.
  induction s as [|c s [IH1 IH2]]; [split; reflexivity|].
  destruct (lower_upper_ascii c) as [H1 H2].
  simpl. rewrite IH1, IH2, H1, H2. split; reflexivity.
Qed.

(** X13. Both simplifiers return one of the four labels and ignore letter
    case; on a text cell they differ in one case only: a region that
    mentions none of [utr3], [utr5], [cds] but mentions [exon] is [Other]
    for Ψ and [CDS] for m6A.  A cell that is not text is [Other] for
    m6A. *)
Theorem simplify_region_labels (region : string) :
  simplify_region_psi region ∈ ["3'UTR"; "5'UTR"; "CDS"; "Other"]
  ∧ simplify_region_m6a (Some region) ∈ ["3'UTR"; "5'UTR"; "CDS"; "Other"]
  ∧ simplify_region_m6a None = "Other"
  ∧ simplify_region_psi (upper region) = simplify_region_psi region
  ∧ simplify_region_m6a (Some (upper region)) = simplify_region_m6a (Some region)
  ∧ (simplify_region_m6a (Some region) ≠ simplify_region_psi region
     ↔ simplify_region_psi region = "Other"
       ∧ contains "exon" (lower region) = true)
  ∧ (simplify_region_m6a (Some region) ≠ simplify_region_psi region
     → simplify_region_m6a (Some region) = "CDS").
Proof.
  unfold simplify_region_psi, simplify_region_m6a.
  rewrite (proj1 (lower_upper region)).
  destruct (contains "utr3" (lower region));
    destruct (contains "utr5" (lower region));
    destruct (contains "cds" (lower region));
    destruct (contains "exon" (lower region)); simpl;
    repeat split; try (intros; congruence);
    try (intros [? ?]; congruence);
    repeat (first [apply list_elem_of_here | apply list_elem_of_further]).
Qed.

Lemma value_count_cons (l r : string) (labels : list string) :
  value_count (l :: labels) r
  = ((if decide (l = r) then 1 else 0) + value_count labels r)%nat.
Proof.
  unfold value_count. rewrite filter_cons.
  destruct (decide (l = r)); reflexivity.
Qed.

Lemma value_count_four (labels : list string) :
  Forall (fun l => l ∈ ["3'UTR"; "5'UTR"; "CDS"; "Other"]) labels →
  (value_count labels "5'UTR" + value_count labels "CDS"
   + value_count labels "3'UTR" + value_count labels "Other"
   = length labels)%nat.
Proof.
  induction 1 as [|l labels Hl _ IH]; [reflexivity|].
  rewrite !value_count_cons. cbn [length].
  rewrite !elem_of_cons in Hl.
  destruct Hl as [->|[->|[->|[->|[]%elem_of_nil]]]];
    repeat case_decide; simplify_eq; lia.
Qed.

(** X14. The contingency table of [metagene_analysis] has one row per
    region, 5'UTR, CDS, 3'UTR in that order, and leaves out the sites
    labelled [Other]: each of its columns adds up to the number of sites of
    that modification minus the number labelled [Other]. *)
Theorem contingency_table_totals (psi_regions : list string)
    (m6a_regions : list (option string)) :
  let psi_labels := simplify_region_psi <$> psi_regions in
  let m6a_labels := simplify_region_m6a <$> m6a_regions in
  ∃ p5 pc p3 m5 mc m3,
    contingency_table psi_labels m6a_labels = [(p5, m5); (pc, mc); (p3, m3)]
    ∧ (p5 + pc + p3 + value_count psi_labels "Other"
       = length psi_regions)%nat
    ∧ (m5 + mc + m3 + value_count m6a_labels "Other"
       = length m6a_regions)%nat.
Proof.
  intros psi_labels m6a_labels. eexists _, _, _, _, _, _.
  split; [reflexivity|]. split.
  - rewrite <- (length_fmap simplify_region_psi psi_regions).
    apply value_count_four, Forall_fmap, Forall_forall.
    intros r _. apply (simplify_region_labels r).
  - rewrite <- (length_fmap simplify_region_m6a m6a_regions).
    apply value_count_four, Forall_fmap, Forall_forall.
    intros [r|] _; [apply (simplify_region_labels r)|].
    simpl. repeat (first [apply list_elem_of_here | apply list_elem_of_further]).
Qed.

(** ** generate_realistic_bed: the rows of the table *)


Lemma site_in_gene_fields (mod_type : string) (i : nat) (g : Gene)
    (region : Region) (pos_u score_u : Z) (s : AnnotatedSite) :
  0 < gene_length g →
  site_in_gene mod_type i g region pos_u score_u = Returned s →
  a_chrom s = gene_chrom g
  ∧ a_strand s = gene_strand g
  ∧ a_end s = a_start s + 1
  ∧ a_name s = upper mod_type +:+ "_site_" +:+ pretty i
  ∧ 150 <= a_score s < 1000
  ∧ a_feature s = region_feature region
  ∧ in_range (a_start s) (region_range g region)
  ∧ relative_pos s
    = (inject_Z (a_start s - gene_start g) / inject_Z (gene_length g))%Q.
Proof.
  intros HL Hs. unfold site_in_gene in Hs.
  destruct (region_range g region) as [low high].
  apply bind_Returned in Hs as (pos & Hpos & Hs).
  apply bind_Returned in Hs as (q & Hq & Hs).
  apply bind_Returned in Hs as (sc & Hsc & Hs).
  injection Hs as <-. cbn.
  apply randint_Returned in Hpos, Hsc.
  rewrite truediv_nonzero in Hq by lia. injection Hq as <-.
  unfold in_range. cbn. auto 10.
Qed.








Lemma fraction_lt (a b L : Z) :
  0 < L → a < b → (inject_Z a / inject_Z L < inject_Z b / inject_Z L)%Q.
Proof.
  intros HL Hab. unfold Qdiv. apply Qmult_lt_compat_r.
  - apply Qinv_lt_0_compat. change 0%Q with (inject_Z 0).
    rewrite <- Zlt_Qlt. exact HL.
  - rewrite <- Zlt_Qlt. exact Hab.
Qed.

(** X17. The relative position is not strand-corrected: among the sites
    drawn for one gene, on the '+' strand every 5'UTR site has a smaller
    relative position than every CDS site and every CDS site a smaller one
    than every 3'UTR site, and on any other strand the order is the
    reverse. *)
Theorem relative_pos_order_by_strand (g : Gene) (mod_type : string)
    (i5 ic i3 : nat) (u5 uc u3 v5 vc v3 : Z) (s5 sc s3 : AnnotatedSite) :
  0 < gene_length g →
  site_in_gene mod_type i5 g utr5 u5 v5 = Returned s5 →
  site_in_gene mod_type ic g cds uc vc = Returned sc →
  site_in_gene mod_type i3 g utr3 u3 v3 = Returned s3 →
  (gene_strand g = "+" →
   (relative_pos s5 < relative_pos sc)%Q ∧ (relative_pos sc < relative_pos s3)%Q)
  ∧ (gene_strand g ≠ "+" →
     (relative_pos s3 < relative_pos sc)%Q ∧ (relative_pos sc < relative_pos s5)%Q).
Proof.
  intros HL H5 Hc H3.
  assert (HL0 : 0 <= gene_length g) by lia.
  apply site_in_gene_fields in H5 as (_ & _ & _ & _ & _ & _ & R5 & Q5); [|exact HL].
  apply site_in_gene_fields in Hc as (_ & _ & _ & _ & _ & _ & Rc & Qc); [|exact HL].
  apply site_in_gene_fields in H3 as (_ & _ & _ & _ & _ & _ & R3 & Q3); [|exact HL].
  rewrite (region_range_eq g utr5 HL0) in R5.
  rewrite (region_range_eq g cds HL0) in Rc.
  rewrite (region_range_eq g utr3 HL0) in R3.
  cbn zeta in R5, Rc, R3. unfold in_range in R5, Rc, R3.
  rewrite Q5, Qc, Q3.
  split; intros Hs.
  - assert (Hp : is_plus g = true)
      by (unfold is_plus; apply bool_decide_eq_true; exact Hs).
    rewrite Hp in R5, R3. simpl in R5, Rc, R3.
    split; apply fraction_lt; lia.
  - assert (Hp : is_plus g = false)
      by (unfold is_plus; apply bool_decide_eq_false; exact Hs).
    rewrite Hp in R5, R3. simpl in R5, Rc, R3.
    split; apply fraction_lt; lia.
Qed.

Lemma relative_pos_order_by_strand_witness :
  let g := mkGene "chr1" 1000 2000 "g" "-" in
  ∃ s5 sc s3,
    site_in_gene "psi" 0 g utr5 0 0 = Returned s5
    ∧ site_in_gene "psi" 1 g cds 0 0 = Returned sc
    ∧ site_in_gene "psi" 2 g utr3 0 0 = Returned s3
    ∧ (relative_pos s3 < relative_pos sc)%Q
    ∧ (relative_pos sc < relative_pos s5)%Q.
Proof.
  intros g. eexists _, _, _.
  split; [reflexivity|]. split; [reflexivity|]. split; [reflexivity|].
  apply (relative_pos_order_by_strand g "psi" 0 1 2 0 0 0 0 0 0 _ _ _
           ltac:(reflexivity) eq_refl eq_refl eq_refl).
  discriminate.
Defined.

(** ** generate_mock_psi and generate_mock_m6a: the gene table *)

(** X18. With a genome of at least 2 Mb, and small enough for
    [genome_size * 1,000,000] to be an int64, a drawn gene is well formed: it
    lies on one of chr1..chr22, starts at or after 1,000,000, is 1,000 to
    99,999 bases long, ends before [genome_size * 1,000,000], and its two
    cut points split it into three non-empty regions of lengths
    [floor(0.2 L)], [floor(0.6 L)] and the rest. *)
Theorem draw_mock_gene_well_formed (genome_size chrom_u start_u length_u : Z) :
  2 <= genome_size → genome_size * 1000000 < 2 ^ 63 →
  ∃ c gs L,
    draw_mock_gene genome_size chrom_u start_u length_u
    = Returned (mock_gene ("chr" +:+ pretty c) gs L)
    ∧ 1 <= c <= 22
    ∧ 1000000 <= gs < genome_size * 1000000 - 100000
    ∧ 1000 <= L < 100000
    ∧ let g := mock_gene ("chr" +:+ pretty c) gs L in
      mg_gene_end g = gs + L
      ∧ mg_gene_end g < genome_size * 1000000
      ∧ mg_utr5_end g = gs + L / 5
      ∧ mg_cds_end g = gs + L / 5 + 3 * L / 5
      ∧ mg_gene_start g < mg_utr5_end g < mg_cds_end g
      ∧ mg_cds_end g < mg_gene_end g.
Proof.
  intros HG Hmax. unfold draw_mock_gene.
  destruct (randint_nonempty 1 23 chrom_u ltac:(lia)) as [-> Hc].
  cbn [mbind outcome_bind].
  destruct (randint_nonempty 1000000 (genome_size * 1000000 - 100000) start_u
              ltac:(lia)) as [-> Hs].
  cbn [mbind outcome_bind].
  destruct (randint_nonempty 1000 100000 length_u ltac:(lia)) as [-> HL].
  cbn [mbind outcome_bind].
  eexists _, _, _. split; [reflexivity|].
  split; [lia|]. split; [exact Hs|]. split; [exact HL|].
  set (L := 1000 + length_u `mod` (100000 - 1000)) in *.
  set (gs := 1000000 + start_u `mod` (genome_size * 1000000 - 100000 - 1000000)) in *.
  cbn zeta. unfold mock_gene.
  cbn [mg_gene_start mg_gene_end mg_utr5_end mg_cds_end].
  rewrite (py_int_fifth L), (py_int_three_fifths L) by lia.
  destruct (fifths_bounds L ltac:(lia)) as (Hu & Hcd & Hsum & Hz5 & Hzc & Hlt).
  assert (0 < L / 5) by lia. assert (0 < 3 * L / 5) by lia.
  repeat split; lia.
Qed.

Lemma draw_mock_gene_well_formed_witness :
  (2 <= 3000 ∧ 3000 * 1000000 < 2 ^ 63)
  ∧ ∃ c gs L,
      draw_mock_gene 3000 5 7 11 = Returned (mock_gene ("chr" +:+ pretty c) gs L)
      ∧ 1 <= c <= 22
      ∧ 1000000 <= gs < 3000 * 1000000 - 100000
      ∧ 1000 <= L < 100000.
Proof.
  split; [lia|].
  destruct (draw_mock_gene_well_formed 3000 5 7 11 ltac:(lia) ltac:(lia))
    as (c & gs & L & Hd & Hc & Hs & HL & _).
  exists c, gs, L. auto.
Defined.

(** X19. With a genome of 1 Mb or less no gene can be drawn: the range of
    gene starts [[1000000, genome_size * 1000000 - 100000)] is empty and
    the draw raises [ValueError]. *)
Theorem draw_mock_gene_small_genome (genome_size chrom_u start_u length_u : Z) :
  genome_size <= 1 →
  draw_mock_gene genome_size chrom_u start_u length_u = Raised ValueError.
Proof.
  intros HG. unfold draw_mock_gene.
  destruct (randint_nonempty 1 23 chrom_u ltac:(lia)) as [-> _].
  cbn [mbind outcome_bind].
  rewrite (randint_empty 1000000 (genome_size * 1000000 - 100000) start_u)
    by lia.
  reflexivity.
Qed.

Lemma draw_mock_gene_small_genome_witness :
  draw_mock_gene 1 5 7 11 = Raised ValueError.
Proof. apply draw_mock_gene_small_genome. lia. Defined.

(** X20. On a gene row of length at least 5, hence on every drawn gene,
    the Ψ site loop never raises: whatever region is chosen, the site is a
    one-base interval inside that region of the gene, labelled with it,
    with a score in [[100, 1000)] and a relative position in [[0, 1]]. *)
Theorem mock_psi_site_well_formed (n : nat) (c : string) (gs L : Z)
    (region : Region) (pos_u score_u : Z) (strand_choice : string) :
  5 <= L →
  let g := mock_gene c gs L in
  ∃ s, mock_psi_site n g region pos_u score_u strand_choice = Returned s
       ∧ a_chrom s = c
       ∧ in_range (a_start s) (mock_region_range g region)
       ∧ mg_gene_start g <= a_start s < mg_gene_end g
       ∧ a_end s = a_start s + 1
       ∧ a_feature s = region_feature region
       ∧ 100 <= a_score s < 1000
       ∧ (0 <= relative_pos s <= 1)%Q.
Proof.
  intros HL g.
  destruct (fifths_bounds L ltac:(lia)) as (Hu & Hcd & Hsum & Hz5 & Hzc & Hlt).
  assert (0 < L / 5) by lia. assert (0 < 3 * L / 5) by lia.
  assert (Hrange : ∃ low high, mock_region_range g region = (low, high)
                     ∧ gs <= low ∧ low < high ∧ high <= gs + L).
  { unfold g, mock_gene, mock_region_range.
    cbn [mg_gene_start mg_gene_end mg_utr5_end mg_cds_end].
    rewrite (py_int_fifth L), (py_int_three_fifths L) by lia.
    destruct region; eexists _, _; (split; [reflexivity|]); lia. }
  destruct Hrange as (low & high & Hr & Hlo & Hne & Hhi).
  unfold mock_psi_site. rewrite Hr.
  destruct (randint_nonempty low high pos_u Hne) as [-> Hpos].
  cbn [mbind outcome_bind].
  change (mg_gene_length g) with L. change (mg_gene_start g) with gs.
  rewrite truediv_nonzero by lia. cbn [mbind outcome_bind].
  destruct (randint_nonempty 100 1000 score_u ltac:(lia)) as [-> Hsc].
  cbn [mbind outcome_bind].
  eexists. split; [reflexivity|]. cbn.
  change (mg_gene_end g) with (gs + L).
  unfold in_range. cbn [fst snd].
  repeat (split; [first [reflexivity | lia]|]).
  apply unit_fraction. lia.
Qed.

Lemma mock_psi_site_well_formed_witness :
  5 <= 1000
  ∧ ∃ s, mock_psi_site 0 (mock_gene "chr1" 1000000 1000) utr5 3 4 "-"
         = Returned s
         ∧ a_feature s = "5UTR".
Proof.
  split; [lia|].
  destruct (mock_psi_site_well_formed 0 "chr1" 1000000 1000 utr5 3 4 "-"
              ltac:(lia)) as (s & Hs & _ & _ & _ & _ & Hf & _).
  exists s. split; [exact Hs | exact Hf].
Defined.



(** ** SequenceExtractor._reverse_complement and MotifAnalyzer *)

Lemma complement_twice (c : ascii) :
  complement (complement c) = uracil_to_thymine c.
Proof. destruct c as [[] [] [] [] [] [] [] []]; reflexivity. Qed.

(** X22. The reverse complement keeps the length of a sequence, and taking
    it twice gives the sequence back with every [U] turned into [T] (and
    [u] into [t]): it is an involution exactly on sequences without
    uracil. *)
Theorem reverse_complement_twice (sequence : string) :
  String.length (_reverse_complement sequence) = String.length sequence
  ∧ String.list_ascii_of_string
      (_reverse_complement (_reverse_complement sequence))
    = uracil_to_thymine <$> String.list_ascii_of_string sequence
  ∧ (_reverse_complement (_reverse_complement sequence) = sequence
     ↔ Forall (fun c => c ≠ "U"%char ∧ c ≠ "u"%char)
         (String.list_ascii_of_string sequence)).
Proof.
  assert (Hlen : ∀ l : list ascii,
            String.length (String.string_of_list_ascii l) = length l).
  { induction l as [|c l IH]; [reflexivity|]. simpl. by rewrite IH. }
  assert (Hlen' : ∀ s : string,
            length (String.list_ascii_of_string s) = String.length s).
  { induction s as [|c s IH]; [reflexivity|]. simpl. by rewrite IH. }
  assert (Htwice : String.list_ascii_of_string
                     (_reverse_complement (_reverse_complement sequence))
                   = uracil_to_thymine <$> String.list_ascii_of_string sequence).
  { unfold _reverse_complement.
    rewrite !String.list_ascii_of_string_of_list_ascii.
    rewrite <- fmap_reverse, reverse_involutive, <- list_fmap_compose.
    apply list_fmap_ext. intros _ c _. apply complement_twice. }
  split; [|split; [exact Htwice|]].
  - unfold _reverse_complement.
    rewrite Hlen, length_fmap, length_reverse. apply Hlen'.
  - split.
    + intros Heq. rewrite Heq in Htwice.
      induction (String.list_ascii_of_string sequence) as [|c l IH];
        [constructor|].
      rewrite fmap_cons in Htwice. injection Htwice as Hc Hl.
      constructor; [|exact (IH Hl)].
      split; intros ->; discriminate Hc.
    + intros Hall.
      rewrite <- (String.string_of_list_ascii_of_string
                    (_reverse_complement (_reverse_complement sequence))).
      rewrite Htwice.
      rewrite <- (String.string_of_list_ascii_of_string sequence) at 2.
      f_equal. clear Htwice.
      induction Hall as [|c l [Hc1 Hc2] _ IH]; [reflexivity|].
      rewrite fmap_cons, IH. f_equal.
      unfold uracil_to_thymine.
      destruct (Ascii.eqb_spec c "U"); [contradiction|].
      destruct (Ascii.eqb_spec c "u"); [contradiction|]. reflexivity.
Qed.

Lemma motif_char_normal (c : ascii) :
  let f := fun c => if Ascii.eqb (upper_ascii c) "T" then "U"%char
                    else upper_ascii c in
  f c ≠ "T"%char ∧ upper_ascii (f c) = f c ∧ f (f c) = f c.
Proof. destruct c as [[] [] [] [] [] [] [] []]; repeat split; discriminate. Qed.

Lemma motif_sequence_chars (seq : string) :
  String.list_ascii_of_string (replace_T_U (upper seq))
  = (fun c => if Ascii.eqb (upper_ascii c) "T" then "U"%char
              else upper_ascii c)
    <$> String.list_ascii_of_string seq.
Proof.
  induction seq as [|c seq IH]; [reflexivity|].
  simpl. rewrite IH. reflexivity.
Qed.

(** X23. The sequences a [MotifAnalyzer] stores for sequences of ASCII
    characters are normalised: each has the length of the sequence given,
    contains no [T] and no lower-case letter, and normalising again changes
    nothing. *)
Theorem motif_sequences_normalised (sequences : list string)
    (Hascii : Forall is_ascii sequences) :
  length (motif_sequences sequences) = length sequences
  ∧ (∀ i seq, sequences !! i = Some seq →
       ∃ seq', motif_sequences sequences !! i = Some seq'
         ∧ String.length seq' = String.length seq
         ∧ Forall (fun c => c ≠ "T"%char ∧ upper_ascii c = c)
             (String.list_ascii_of_string seq'))
  ∧ motif_sequences (motif_sequences sequences) = motif_sequences sequences.
Proof.
  assert (Hlen : ∀ s : string,
            length (String.list_ascii_of_string s) = String.length s).
  { induction s as [|c s IH]; [reflexivity|]. simpl. by rewrite IH. }
  unfold motif_sequences. split; [apply length_fmap|]. split.
  - intros i seq Hi. eexists. rewrite list_lookup_fmap, Hi.
    split; [reflexivity|]. split.
    + rewrite <- !Hlen, motif_sequence_chars. apply length_fmap.
    + rewrite motif_sequence_chars. apply Forall_fmap, Forall_forall.
      intros c _. destruct (motif_char_normal c) as (H1 & H2 & _).
      split; assumption.
  - rewrite <- list_fmap_compose. apply list_fmap_ext. intros _ seq _.
    simpl.
    rewrite <- (String.string_of_list_ascii_of_string
                  (replace_T_U (upper (replace_T_U (upper seq))))).
    rewrite <- (String.string_of_list_ascii_of_string
                  (replace_T_U (upper seq))) at 2.
    f_equal. rewrite !motif_sequence_chars, <- list_fmap_compose.
    apply list_fmap_ext. intros _ c _.
    destruct (motif_char_normal c) as (_ & _ & H3). exact H3.
Qed.

Lemma motif_sequences_normalised_witness :
  Forall is_ascii ["acgt"; "GGTCa"]
  ∧ motif_sequences ["acgt"; "GGTCa"] = ["ACGU"; "GGUCA"]
  ∧ motif_sequences (motif_sequences ["acgt"; "GGTCa"])
    = motif_sequences ["acgt"; "GGTCa"].
Proof.
  assert (Hascii : Forall is_ascii ["acgt"; "GGTCa"])
    by (repeat constructor).
  split; [exact Hascii|]. split; [reflexivity|].
  exact (proj2 (proj2 (motif_sequences_normalised ["acgt"; "GGTCa"] Hascii))).
Defined.

(** ** MotifAnalyzer.compute_pwm *)

Lemma add_base_ok (k : Z) (r : BaseRow) (b : ascii) :
  row_ok k r → row_ok (k + 1) (add_base r b).
Proof.
  unfold row_ok, row_sum, add_base. intros (Hs & HA & HU & HC & HG).
  rewrite inject_Z_plus.
  destruct (Ascii.eqb b "A"); [|destruct (Ascii.eqb b "U");
    [|destruct (Ascii.eqb b "C"); [|destruct (Ascii.eqb b "G")]]];
    cbn [n_A n_U n_C n_G]; repeat split; try lra;
    change (inject_Z 1) with 1%Q; lra.
Qed.

Lemma zip_with_add_base_ok (k : Z) (m : list BaseRow) (chars : list ascii) :
  length chars = length m → Forall (row_ok k) m →
  Forall (row_ok (k + 1)) (zip_with add_base m chars)
  ∧ length (zip_with add_base m chars) = length m.
Proof.
  intros Hlen Hm. revert chars Hlen.
  induction Hm as [|r m Hr Hm IH]; intros [|c chars] Hlen;
    try discriminate; [split; [constructor|reflexivity]|].
  injection Hlen as Hlen. destruct (IH chars Hlen) as [IH1 IH2].
  cbn [zip_with]. split; [|simpl; by rewrite IH2].
  constructor; [by apply add_base_ok | exact IH1].
Qed.

Lemma fold_count_ok (L : nat) (sequences : list string) (k : Z)
    (m : list BaseRow) :
  length m = L → Forall (row_ok k) m →
  let k' := k + Z.of_nat (length (filter (fun s => String.length s = L) sequences)) in
  Forall (row_ok k') (foldl (count_sequence L) m sequences)
  ∧ length (foldl (count_sequence L) m sequences) = L.
Proof.
  revert k m. induction sequences as [|s sequences IH]; intros k m Hlen Hm.
  - cbn. rewrite Z.add_0_r. auto.
  - cbn [foldl]. rewrite filter_cons. unfold count_sequence at 2 4.
    destruct (decide (String.length s = L)) as [Hs|Hs].
    + assert (Hc : length (String.list_ascii_of_string s) = length m).
      { rewrite Hlen, <- Hs. clear. induction s as [|c s IH]; [reflexivity|].
        simpl. by rewrite IH. }
      destruct (zip_with_add_base_ok k m _ Hc Hm) as [Hm' Hlen'].
      destruct (IH (k + 1) _ (eq_trans Hlen' Hlen) Hm') as [H1 H2].
      cbn zeta in *. split; [|exact H2].
      cbn [length]. replace (k + Z.of_nat (S _)) with
        (k + 1 + Z.of_nat (length (filter (fun s => String.length s = L) sequences)))
        by lia.
      exact H1.
    + apply (IH k m Hlen Hm).
Qed.

(** X24. For a non-empty list of sequences the PWM has one row per
    position of the first sequence.  Each row of the count matrix adds up
    to the number of sequences that have the first one's length plus the
    pseudocounts (2), with every entry at least 0.5; so every frequency is
    positive and, in exact arithmetic, each row of frequencies adds up to
    1.  For an empty list the PWM is empty. *)
Theorem compute_pwm_rows (first : string) (rest : list string) :
  let sequences := first :: rest in
  let n := Z.of_nat (same_length_count sequences) in
  compute_pwm [] = []
  ∧ length (compute_pwm sequences) = String.length first
  ∧ Forall (fun r => (row_sum r == inject_Z (n + 2))%Q
                     ∧ (0.5 <= n_A r)%Q ∧ (0.5 <= n_U r)%Q
                     ∧ (0.5 <= n_C r)%Q ∧ (0.5 <= n_G r)%Q)
      (pwm_counts sequences)
  ∧ Forall (fun r => (row_sum r == 1)%Q
                     ∧ (0 < n_A r)%Q ∧ (0 < n_U r)%Q
                     ∧ (0 < n_C r)%Q ∧ (0 < n_G r)%Q)
      (compute_pwm sequences).
Proof.
  intros sequences n.
  set (L := String.length first).
  assert (Hzero : Forall (row_ok 0) (replicate L (mkBaseRow 0 0 0 0))).
  { apply Forall_replicate. unfold row_ok, row_sum. cbn. repeat split; lra. }
  destruct (fold_count_ok L sequences 0 _ (length_replicate _ _) Hzero)
    as [Hrows Hlen].
  cbn zeta in Hrows. rewrite Z.add_0_l in Hrows.
  fold (same_length_count sequences) in Hrows.
  change (Z.of_nat (length (filter (fun s => String.length s = L) sequences)))
    with n in Hrows.
  assert (Hn : (0 <= inject_Z n)%Q).
  { change 0%Q with (inject_Z 0). rewrite <- Zle_Qle. unfold n. lia. }
  assert (Hcounts : Forall (fun r => (row_sum r == inject_Z (n + 2))%Q
                     ∧ (0.5 <= n_A r)%Q ∧ (0.5 <= n_U r)%Q
                     ∧ (0.5 <= n_C r)%Q ∧ (0.5 <= n_G r)%Q)
                      (pwm_counts sequences)).
  { unfold pwm_counts, sequences. fold L. fold sequences.
    apply Forall_fmap. eapply Forall_impl; [exact Hrows|].
    intros r (Hs & HA & HU & HC & HG). unfold row_sum in *. cbn.
    rewrite inject_Z_plus. change (inject_Z 2) with 2%Q.
    repeat split; lra. }
  split; [reflexivity|]. split; [|split; [exact Hcounts|]].
  - unfold compute_pwm, pwm_counts, sequences. fold L. fold sequences.
    rewrite !length_fmap. exact Hlen.
  - unfold compute_pwm. apply Forall_fmap. eapply Forall_impl; [exact Hcounts|].
    intros r (Hs & HA & HU & HC & HG). cbn.
    assert (Hpos : (0 < row_sum r)%Q).
    { rewrite Hs, inject_Z_plus. change (inject_Z 2) with 2%Q. lra. }
    assert (Hne : ¬ (row_sum r == 0)%Q) by lra.
    split.
    + clear Hs HA HU HC HG Hpos. unfold row_sum in *. cbn [n_A n_U n_C n_G].
      field. exact Hne.
    + assert (Hdiv : ∀ x : Q, (0.5 <= x)%Q → (0 < x / row_sum r)%Q).
      { intros x Hx. apply Qlt_shift_div_l; [exact Hpos|]. lra. }
      auto.
Qed.
